(** * MiniMax MCP server: request lifecycle

    A shallow embedding of the request lifecycle code of the MiniMax MCP
    JavaScript server and the properties it satisfies:

    - [MusicAPI]: the audio-setting coercions of [src/api/music.ts];
    - [MCPServer]: the STDIO server of [src/mcp-server.ts], its tool
      handlers and [updateConfig], over a store of mutable objects;
    - [MCPRestServer]: the REST server of [src/mcp-rest-server.ts], its
      credential extraction, its tool dispatcher and the retrying handlers.

    JavaScript numbers are modelled by [Z] (integral values only), strings by
    [string] (one character per code unit, ASCII), thrown values by [Exn] and
    a call that may throw by [Outcome]. *)

From Stdlib Require Import ZArith Lia String Ascii List.
From stdpp Require Import base option gmap strings list pretty.
From Equations Require Import Equations.

Local Open Scope string_scope.
Local Open Scope Z_scope.

(** ** JavaScript preliminaries *)

(** A thrown value. The handlers only ever ask a caught value whether it is
    an [Error] and then read [error.message], or else take [String(error)];
    a value that is not an [Error] is therefore kept as its [String]
    rendering. *)
Inductive Exn : Type :=
  | ErrorObj (message : string)
  | NonError (rendered : string).

(** [error instanceof Error ? error.message : String(error)] *)
Definition errorMessage (error : Exn) : string :=
  match error with
  | ErrorObj message => message
  | NonError rendered => rendered
  end.

(** The completion of a call: a returned value or a thrown one. *)
Inductive Outcome (A : Type) : Type :=
  | Return (a : A)
  | Throw (error : Exn).
Arguments Return {A} a.
Arguments Throw {A} error.

#[global] Instance Outcome_ret : MRet Outcome := λ A a, Return a.
#[global] Instance Outcome_bind : MBind Outcome := λ A B k c,
  match c with
  | Return a => k a
  | Throw error => Throw error
  end.

(** [try { c } catch (error) { handler }] *)
Definition try_catch {A} (c : Outcome A) (handler : Exn → Outcome A) : Outcome A :=
  match c with
  | Return a => Return a
  | Throw error => handler error
  end.

(** [String.prototype.includes]: [needle] occurs in [s] at some offset. *)
Fixpoint includes (s needle : string) : bool :=
  String.prefix needle s ||
  match s with
  | EmptyString => false
  | String _ s' => includes s' needle
  end.

(** [\w] of a JavaScript regular expression: [[A-Za-z0-9_]]. *)
Definition is_word_char (c : ascii) : bool :=
  let n := nat_of_ascii c in
  ((65 <=? n) && (n <=? 90) || (97 <=? n) && (n <=? 122) ||
   (48 <=? n) && (n <=? 57) || (n =? 95))%nat.

(** [s.replace(/[^\w]/g, '_')] *)
Fixpoint replace_non_word (s : string) : string :=
  match s with
  | EmptyString => EmptyString
  | String c s' =>
      String (if is_word_char c then c else "_"%char) (replace_non_word s')
  end.

(** [s.substring(0, 20).replace(/[^\w]/g, '_')], the file-name prefix that
    the handlers derive from a prompt. *)
Definition filePrefix (s : string) : string :=
  replace_non_word (String.substring 0 20 s).

(** White space removed by [String.prototype.trim] (the ASCII part). *)
Definition is_white_space (c : ascii) : bool :=
  let n := nat_of_ascii c in
  ((n =? 32) || (9 <=? n) && (n <=? 13))%nat.

Fixpoint trimStart (s : string) : string :=
  match s with
  | EmptyString => EmptyString
  | String c s' => if is_white_space c then trimStart s' else s
  end.

Definition trim (s : string) : string :=
  String.rev (trimStart (String.rev (trimStart s))).

(** The own enumerable properties of a string primitive, as an object spread
    [{...s}] or [Object.assign] sees them: one single-character string per
    index. *)
Definition string_props {V} (str : string → V) (s : string) : gmap string V :=
  list_to_map
    (imap (λ i c, (pretty i, str (String c EmptyString))) (list_ascii_of_string s)).

(** ** The music adapter: [MusicAPI] ([src/api/music.ts]) *)

Module MusicAPI.

(** [MusicGenerationRequest]; [None] is [undefined]. [outputFormat] is set
    by the tool handler. *)
Record MusicGenerationRequest : Type := {
  prompt : string;
  lyrics : string;
  sampleRate : option Z;
  bitrate : option Z;
  format : option string;
  channel : option Z;
  outputDirectory : option string;
  outputFormat : option string;
}.

Record AudioSetting : Type := {
  sample_rate : Z;
  as_bitrate : Z;
  as_format : string;
  as_channel : Z;
}.

(** [Array.prototype.reduce] without an initial value: the first element
    seeds the accumulator. On an empty array JavaScript throws ([None]). *)
Definition reduce {A} (f : A → A → A) (arr : list A) : option A :=
  match arr with
  | [] => None
  | first :: rest => Some (fold_left f rest first)
  end.

(** The reducer of the [ensureValid*] helpers:
    [Math.abs(curr - x) < Math.abs(prev - x) ? curr : prev]. *)
Definition closer (x prev curr : Z) : Z :=
  if Z.abs (curr - x) <? Z.abs (prev - x) then curr else prev.

Definition arr_includes (arr : list Z) (x : Z) : bool :=
  existsb (Z.eqb x) arr.

Definition validSampleRates : list Z := [16000; 24000; 32000; 44100].
Definition validBitrates : list Z := [32000; 64000; 128000; 256000].
Definition validChannels : list Z := [1; 2].
Definition validFormats : list string := ["mp3"; "pcm"; "wav"].

(** The three numeric helpers share one body up to the list and the
    default; the [None] branch of [reduce] is dead, the lists being
    non-empty literals. *)
Definition ensureValidSampleRate (sampleRate : option Z) : Z :=
  match sampleRate with
  | None => 32000
  | Some sampleRate =>
      if negb (arr_includes validSampleRates sampleRate) then
        match reduce (closer sampleRate) validSampleRates with
        | Some closest => closest
        | None => sampleRate
        end
      else sampleRate
  end.

Definition ensureValidBitrate (bitrate : option Z) : Z :=
  match bitrate with
  | None => 128000
  | Some bitrate =>
      if negb (arr_includes validBitrates bitrate) then
        match reduce (closer bitrate) validBitrates with
        | Some closest => closest
        | None => bitrate
        end
      else bitrate
  end.

Definition ensureValidChannel (channel : option Z) : Z :=
  match channel with
  | None => 1
  | Some channel =>
      if negb (arr_includes validChannels channel) then
        match reduce (closer channel) validChannels with
        | Some closest => closest
        | None => channel
        end
      else channel
  end.

Definition ensureValidFormat (format : option string) : string :=
  match format with
  | None => "mp3"
  | Some format =>
      if String.eqb format "" then "mp3"
      else if negb (existsb (String.eqb format) validFormats) then "mp3"
      else format
  end.

(** The [audio_setting] object literal of [generateMusic]. *)
Definition audio_setting (request : MusicGenerationRequest) : AudioSetting :=
  {| sample_rate := ensureValidSampleRate (sampleRate request);
     as_bitrate := ensureValidBitrate (bitrate request);
     as_format := ensureValidFormat (format request);
     as_channel := ensureValidChannel (channel request) |}.

Record RequestData : Type := {
  rd_model : string;
  rd_prompt : string;
  rd_lyrics : string;
  rd_audio_setting : AudioSetting;
  rd_output_format : option string;
}.

Section GenerateMusic.
(** Constants of [src/const/index.ts]. *)
Variables (DEFAULT_MUSIC_MODEL ERROR_PROMPT_REQUIRED ERROR_LYRICS_REQUIRED
           RESOURCE_MODE_URL : string).

(** [generateMusic] up to the request it posts to [/v1/music_generation]:
    the required-parameter checks and the [requestData] literal. *)
Definition generateMusic_requestData (request : MusicGenerationRequest)
  : Outcome RequestData :=
  if String.eqb (prompt request) "" || String.eqb (trim (prompt request)) "" then
    Throw (ErrorObj ERROR_PROMPT_REQUIRED)
  else if String.eqb (lyrics request) "" || String.eqb (trim (lyrics request)) "" then
    Throw (ErrorObj ERROR_LYRICS_REQUIRED)
  else
    Return {| rd_model := DEFAULT_MUSIC_MODEL;
              rd_prompt := prompt request;
              rd_lyrics := lyrics request;
              rd_audio_setting := audio_setting request;
              rd_output_format :=
                if bool_decide (outputFormat request = Some RESOURCE_MODE_URL)
                then Some "url" else None |}.
End GenerateMusic.

(** [r] is the element of [valid] closest to [x], and the earliest such
    element: every element before it is strictly farther from [x], every
    element after it at least as far. *)
Definition first_closest (valid : list Z) (x r : Z) : Prop :=
  ∃ before after : list Z,
    valid = (before ++ r :: after)%list ∧
    (∀ v, v ∈ before → Z.abs (r - x) < Z.abs (v - x)) ∧
    (∀ v, v ∈ after → Z.abs (r - x) ≤ Z.abs (v - x)).

(** How a numeric audio setting is coerced: the default for [undefined], the
    value itself when it is valid, otherwise the first closest valid value. *)
Definition coerced (valid : list Z) (dflt : Z) (input : option Z) (output : Z) : Prop :=
  match input with
  | None => output = dflt
  | Some x => if decide (x ∈ valid) then output = x else first_closest valid x output
  end.

End MusicAPI.

(** ** What both servers share *)

(** The observable actions of a tool call: an invocation of a capability
    adapter (named by its method) and a [setTimeout] delay awaited before a
    retry, in milliseconds. A log lists them oldest first. *)
Inductive Event : Type :=
  | Invoke (method : string)
  | Sleep (ms : Z).

(** Append an event to a log. *)
Definition logged (log : list Event) (e : Event) : list Event := (log ++ [e])%list.

(** The number of adapter invocations and the delays of a log. *)
Fixpoint invocations (log : list Event) : nat :=
  match log with
  | [] => 0
  | Invoke _ :: log' => S (invocations log')
  | Sleep _ :: log' => invocations log'
  end.

Fixpoint delays (log : list Event) : list Z :=
  match log with
  | [] => []
  | Invoke _ :: log' => delays log'
  | Sleep ms :: log' => ms :: delays log'
  end.

(** The result object of a tool: [{ content: [{ type: 'text', text }] }]. *)
Inductive Content : Type :=
  | TextContent (text : string).

Record ToolResult : Type := { content : list Content }.

Definition textResult (text : string) : ToolResult :=
  {| content := [TextContent text] |}.

(** [wrapError(message, error)]: a new [Error] in both branches (the copied
    [stack] is not modelled). *)
Definition wrapError (message : string) (error : Exn) : Exn :=
  match error with
  | ErrorObj m => ErrorObj (message +:+ ": " +:+ m)
  | NonError rendered => ErrorObj (message +:+ ": " +:+ rendered)
  end.

(** The reply of both voice-clone handlers to a real-name verification
    failure. *)
Definition verificationUrl : string :=
  "https://platform.minimaxi.com/user-center/basic-information".

Definition newline : string := String (ascii_of_nat 10) EmptyString.

Definition verificationGuidance : string :=
  "Voice cloning failed: Real-name verification required. To use voice cloning feature, please:"
  +:+ newline +:+ newline +:+ "1. Visit MiniMax platform (" +:+ verificationUrl +:+ ")"
  +:+ newline +:+ "2. Complete the real-name verification process"
  +:+ newline +:+ "3. Try again after verification is complete"
  +:+ newline +:+ newline +:+ "This requirement is for security and compliance purposes.".

(** The test both voice-clone handlers apply to a caught error's message. *)
Definition isVerificationError (errorMessage : string) : bool :=
  includes errorMessage "voice clone user forbidden" ||
  includes errorMessage "should complete real-name verification".

(** ** The STDIO server: [MCPServer] ([src/mcp-server.ts]) *)

Module MCPServer.

(** Configuration objects are mutated in place and shared with callers, so
    they live in a store of objects addressed by reference. *)
Abbreviation loc := positive.

Inductive Value : Type :=
  | VUndefined
  | VNull
  | VBool (b : bool)
  | VNum (n : Z)
  | VStr (s : string)
  | VRef (l : loc).

Abbreviation Obj := (gmap string Value).
Abbreviation Store := (gmap loc (gmap string Value)).

Definition truthy (v : Value) : bool :=
  match v with
  | VUndefined | VNull => false
  | VBool b => b
  | VNum n => negb (n =? 0)
  | VStr s => negb (String.eqb s "")
  | VRef _ => true
  end.

(** [v === s] for a string [s] *)
Definition is_string (v : Value) (s : string) : bool :=
  match v with
  | VStr s' => String.eqb s' s
  | _ => false
  end.

(** [a || b] *)
Definition or_else (a b : Value) : Value := if truthy a then a else b.

(** [o.k] on the properties of an object: [undefined] when [k] is not an
    own property. *)
Definition read (o : Obj) (k : string) : Value := default VUndefined (o !! k).

Definition objAt (σ : Store) (l : loc) : Obj := default ∅ (σ !! l).

(** The own enumerable properties an object spread [{...v}] copies. *)
Definition ownProps (σ : Store) (v : Value) : Obj :=
  match v with
  | VRef l => objAt σ l
  | VStr s => string_props VStr s
  | _ => ∅
  end.

(** A new object; its reference is fresh for the store. *)
Definition alloc (o : Obj) (σ : Store) : loc * Store :=
  let l := fresh (dom σ) in (l, <[l := o]> σ).

(** [l.k = v] *)
Definition setProp (l : loc) (k : string) (v : Value) (σ : Store) : Store :=
  alter (insert k v) l σ.

(** [delete l.k] *)
Definition deleteProp (l : loc) (k : string) (σ : Store) : Store :=
  alter (delete k) l σ.

(** The first half of [updateConfig(newConfig)], "merge server
    configuration", with [this.config] and [newConfig] given by reference.
    An object spread [{...a, ...b}] is the union [b ∪ a], which prefers its
    left operand. *)
Definition mergeServer (σ : Store) (this_config newConfig : loc) : Store :=
  let newServer := read (objAt σ newConfig) "server" in
  let curServer := read (objAt σ this_config) "server" in
  if truthy newServer && truthy curServer then
    let '(merged, σ') := alloc (ownProps σ newServer ∪ ownProps σ curServer) σ in
    deleteProp newConfig "server" (setProp this_config "server" (VRef merged) σ')
  else if truthy newServer then
    deleteProp newConfig "server" (setProp this_config "server" newServer σ)
  else σ.

(** [updateConfig(newConfig)]: the server fields are merged, then
    [this.config] becomes a new object [{...this.config, ...newConfig}]. It
    returns the reference now held by [this.config] and the store. The
    adapters it then rebuilds from [this.config] keep no state of their own
    and are not part of the result. *)
Definition updateConfig (σ : Store) (this_config newConfig : loc) : loc * Store :=
  let σ1 := mergeServer σ this_config newConfig in
  alloc (objAt σ1 newConfig ∪ objAt σ1 this_config) σ1.

Section Tools.
(** Constants of [src/const/index.ts]. *)
Variables (DEFAULT_VOICE_ID DEFAULT_SPEECH_MODEL DEFAULT_SPEED
           DEFAULT_VOLUME DEFAULT_PITCH DEFAULT_EMOTION DEFAULT_FORMAT
           DEFAULT_SAMPLE_RATE DEFAULT_BITRATE DEFAULT_CHANNEL
           DEFAULT_LANGUAGE_BOOST : Value).
Variables (ERROR_API_KEY_REQUIRED ERROR_API_HOST_REQUIRED
           RESOURCE_MODE_URL : string).

(** The language's [String(v)], the message of the [TypeError] raised by
    a method call on a value that lacks the method, and the clock. *)
Variable ToString : Value → string.
Variable typeErrorMessage : string → string.
Variable Date_now : list Event → Z.

(** The adapters ([src/utils/api.ts], [src/api/*.ts]): constructors and
    methods that return or throw. A method's completion may depend on
    its receiver, its argument and what happened before. *)
Variables (API TTS : Type).
Variable new_MiniMaxAPI : Obj → Outcome API.
Variable new_TTSAPI : API → Outcome TTS.
Variable TTSAPI_generateSpeech : TTS → Obj → list Event → Outcome Obj.
Variable voiceCloneApi_cloneVoice : Obj → list Event → Outcome Value.
Variable startStdioServer : list Event → Outcome unit.

(** The handler registered by [registerVoiceCloneTool]. *)
Definition voice_clone (params : Obj) (log : list Event)
  : ToolResult * list Event :=
  let log' := logged log (Invoke "cloneVoice") in
  match voiceCloneApi_cloneVoice params log with
  | Return result =>
      (textResult ("Voice cloning successful: " +:+ ToString result), log')
  | Throw error =>
      let errorMessage := errorMessage error in
      if isVerificationError errorMessage then
        (textResult verificationGuidance, log')
      else
        (textResult ("Voice cloning failed: " +:+ errorMessage), log')
  end.

(** The [ttsParams] literal of the [text_to_audio] handler. *)
Definition ttsParams (args : Obj) : Obj :=
  <["text" := read args "text"]>
  (<["outputDirectory" := read args "outputDirectory"]>
  (<["voiceId" := or_else (read args "voiceId") DEFAULT_VOICE_ID]>
  (<["model" := or_else (read args "model") DEFAULT_SPEECH_MODEL]>
  (<["speed" := or_else (read args "speed") DEFAULT_SPEED]>
  (<["vol" := or_else (read args "vol") DEFAULT_VOLUME]>
  (<["pitch" := or_else (read args "pitch") DEFAULT_PITCH]>
  (<["emotion" := or_else (read args "emotion") DEFAULT_EMOTION]>
  (<["format" := or_else (read args "format") DEFAULT_FORMAT]>
  (<["sampleRate" := or_else (read args "sampleRate") DEFAULT_SAMPLE_RATE]>
  (<["bitrate" := or_else (read args "bitrate") DEFAULT_BITRATE]>
  (<["channel" := or_else (read args "channel") DEFAULT_CHANNEL]>
  (<["languageBoost" := or_else (read args "languageBoost") DEFAULT_LANGUAGE_BOOST]>
  (<["subtitleEnable" := or_else (read args "subtitleEnable") (VBool false)]>
  (<["outputFile" := read args "outputFile"]> ∅)))))))))))))).

(** [text.substring(0, 20).replace(/[^\w]/g, '_')]; only a string has
    [substring]. *)
Definition textPrefix (text : Value) : Outcome string :=
  match text with
  | VStr s => Return (filePrefix s)
  | _ => Throw (ErrorObj (typeErrorMessage "substring"))
  end.

(** [ttsRequest]: [{...ttsParams, outputFormat}], given an [outputFile]
    when it has none. *)
Definition ttsRequest (ttsParams : Obj) (outputFormat : Value)
    (log : list Event) : Outcome Obj :=
  let ttsRequest : Obj := <["outputFormat" := outputFormat]> ttsParams in
  if negb (truthy (read ttsRequest "outputFile")) then
    textPrefix ← textPrefix (read ttsRequest "text");
    Return (<["outputFile" :=
                VStr ("tts_" +:+ textPrefix +:+ "_"
                      +:+ ToString (VNum (Date_now log)))]> ttsRequest)
  else Return ttsRequest.

(** The text of a successful [text_to_audio] result. *)
Definition ttsSuccessText (ttsParams : Obj) (outputFormat : Value)
    (result : Obj) : string :=
  let subtitleEnable := truthy (read ttsParams "subtitleEnable") in
  if is_string outputFormat RESOURCE_MODE_URL then
    "Success. Audio URL: " +:+ ToString (read result "audio") +:+ ". " +:+
    (if subtitleEnable
     then "Subtitle file saved: " +:+ ToString (read result "subtitle")
     else "")
  else
    "Audio file saved: " +:+ ToString (read result "audio") +:+ ". " +:+
    (if subtitleEnable
     then "Subtitle file saved: " +:+ ToString (read result "subtitle") +:+ ". "
     else "")
    +:+ "Voice used: " +:+ ToString (read ttsParams "voiceId").

(** The body of the [try] block of the [text_to_audio] handler; [config]
    holds the properties of [this.config]. *)
Definition text_to_audio_try (config args : Obj) (log : list Event)
  : Outcome ToolResult * list Event :=
  let ttsParams := ttsParams args in
  let requestApiKey := read config "apiKey" in
  if negb (truthy requestApiKey) then
    (Throw (ErrorObj ERROR_API_KEY_REQUIRED), log)
  else
    let requestConfig : Obj :=
      <["apiKey" := requestApiKey]>
      (<["apiHost" := read config "apiHost"]>
      (<["resourceMode" := read config "resourceMode"]> ∅)) in
    match new_MiniMaxAPI requestConfig ≫= new_TTSAPI with
    | Throw error => (Throw error, log)
    | Return requestTtsApi =>
        let outputFormat := read requestConfig "resourceMode" in
        match ttsRequest ttsParams outputFormat log with
        | Throw error => (Throw error, log)
        | Return ttsRequest =>
            let log' := logged log (Invoke "generateSpeech") in
            match TTSAPI_generateSpeech requestTtsApi ttsRequest log with
            | Throw error => (Throw error, log')
            | Return result =>
                (Return (textResult (ttsSuccessText ttsParams outputFormat result)),
                 log')
            end
        end
    end.

(** The handler registered by [registerTextToAudioTool]: the [catch]
    turns every thrown error into a result. *)
Definition text_to_audio (config args : Obj) (log : list Event)
  : ToolResult * list Event :=
  match text_to_audio_try config args log with
  | (Return result, log') => (result, log')
  | (Throw error, log') =>
      (textResult ("Failed to generate audio: " +:+ errorMessage error), log')
  end.

(** [start()]: the two mandatory fields are checked, then the transport
    is started. *)
Definition start (config : Obj) (log : list Event) : Outcome unit :=
  if negb (truthy (read config "apiKey")) then
    Throw (ErrorObj ERROR_API_KEY_REQUIRED)
  else if negb (truthy (read config "apiHost")) then
    Throw (ErrorObj ERROR_API_HOST_REQUIRED)
  else startStdioServer log.

(** *** The other tool handlers

    Their adapters ([src/api/*.ts], [src/utils/audio.ts]) are built once from
    [this.config]; the handlers call them and read [this.config.resourceMode]
    to word the answer. *)

Record VoiceList : Type := {
  systemVoices : list string;
  voiceCloneVoices : list string;
}.

Variable voiceApi_listVoices : Obj → list Event → Outcome VoiceList.
Variable playAudio : Obj → list Event → Outcome string.
Variable imageApi_generateImage : Obj → list Event → Outcome (list string).
Variable videoApi_generateVideo : Obj → list Event → Outcome Obj.
Variable videoApi_queryVideoGeneration : Obj → list Event → Outcome Obj.
Variable musicApi_generateMusic : Obj → list Event → Outcome Value.
Variable voiceDesignApi_voiceDesign : Obj → list Event → Outcome Obj.

(** [arr.join(', ')] on an array of strings *)
Definition join (arr : list string) : string := String.concat ", " arr.

(** [catch (error) { return { content: [{ type: 'text', text: `${what}: ${...}` }] } }] *)
Definition failed (what : string) (error : Exn) : ToolResult :=
  textResult (what +:+ ": " +:+ errorMessage error).

(** The handler registered by [registerListVoicesTool]. *)
Definition list_voices (params : Obj) (log : list Event)
  : ToolResult * list Event :=
  let log' := logged log (Invoke "listVoices") in
  match voiceApi_listVoices params log with
  | Return result =>
      (textResult ("Success. System voices: " +:+ join (systemVoices result)
                   +:+ ", Cloned voices: " +:+ join (voiceCloneVoices result)), log')
  | Throw error => (failed "Failed to list voices" error, log')
  end.

(** The handler registered by [registerPlayAudioTool]. *)
Definition play_audio (params : Obj) (log : list Event)
  : ToolResult * list Event :=
  let log' := logged log (Invoke "playAudio") in
  match playAudio params log with
  | Return result => (textResult result, log')
  | Throw error => (failed "Failed to play audio" error, log')
  end.

(** The three generating handlers start alike: when [params.outputFile] is
    not set, it is set to [`${kind}_${promptPrefix}_${Date.now()}`], the
    prefix being taken from [params.prompt]. *)
Definition nameOutputFile (kind : string) (params : Obj) (log : list Event)
  : Outcome Obj :=
  if negb (truthy (read params "outputFile")) then
    promptPrefix ← textPrefix (read params "prompt");
    Return (<["outputFile" :=
                VStr (kind +:+ "_" +:+ promptPrefix +:+ "_"
                      +:+ ToString (VNum (Date_now log)))]> params)
  else Return params.

(** The handler registered by [registerTextToImageTool]. *)
Definition text_to_image (config params : Obj) (log : list Event)
  : ToolResult * list Event :=
  match nameOutputFile "image" params log with
  | Throw error => (failed "Failed to generate image" error, log)
  | Return params =>
      let log' := logged log (Invoke "generateImage") in
      match imageApi_generateImage params log with
      | Throw error => (failed "Failed to generate image" error, log')
      | Return outputFiles =>
          if is_string (read config "resourceMode") RESOURCE_MODE_URL then
            (textResult ("Success. Image URL(s): " +:+ join outputFiles), log')
          else
            (textResult ("Image(s) saved: " +:+ join outputFiles), log')
      end
  end.

(** What the two video handlers answer once the adapter has returned. *)
Definition videoAnswer (config params result : Obj) : string :=
  if truthy (read params "asyncMode") then
    "Success. Video generation task submitted: Task ID: "
    +:+ ToString (read result "task_id")
    +:+ ". Please use `query_video_generation` tool to check the status of the task and get the result."
  else if is_string (read config "resourceMode") RESOURCE_MODE_URL then
    "Success. Video URL: " +:+ ToString (read result "video_url")
  else
    "Video saved: " +:+ ToString (read result "video_path").

(** The handlers registered by [registerGenerateVideoTool] and
    [registerImageToVideoTool]: they differ in the kind of file name. *)
Definition generate_video (config params : Obj) (log : list Event)
  : ToolResult * list Event :=
  match nameOutputFile "video" params log with
  | Throw error => (failed "Failed to generate video" error, log)
  | Return params =>
      let log' := logged log (Invoke "generateVideo") in
      match videoApi_generateVideo params log with
      | Throw error => (failed "Failed to generate video" error, log')
      | Return result => (textResult (videoAnswer config params result), log')
      end
  end.

Definition image_to_video (config params : Obj) (log : list Event)
  : ToolResult * list Event :=
  match nameOutputFile "i2v" params log with
  | Throw error => (failed "Failed to generate video" error, log)
  | Return params =>
      let log' := logged log (Invoke "generateVideo") in
      match videoApi_generateVideo params log with
      | Throw error => (failed "Failed to generate video" error, log')
      | Return result => (textResult (videoAnswer config params result), log')
      end
  end.

(** The handler registered by [registerQueryVideoGenerationTool]. *)
Definition query_video_generation (config params : Obj) (log : list Event)
  : ToolResult * list Event :=
  let log' := logged log (Invoke "queryVideoGeneration") in
  match videoApi_queryVideoGeneration params log with
  | Throw error => (failed "Failed to query video generation" error, log')
  | Return result =>
      if is_string (read result "status") "Success" then
        if is_string (read config "resourceMode") RESOURCE_MODE_URL then
          (textResult ("Success. Video URL: " +:+ ToString (read result "video_url")),
           log')
        else
          (textResult ("Success. Video saved as: "
                       +:+ ToString (read result "video_path")), log')
      else
        (textResult ("Video generation task is still processing: Task ID: "
                     +:+ ToString (read params "taskId") +:+ "."), log')
  end.

(** The handler registered by [registerMusicGenerationTool]; the adapter is
    given [{...params, outputFormat}]. *)
Definition music_generation (config params : Obj) (log : list Event)
  : ToolResult * list Event :=
  let outputFormat := read config "resourceMode" in
  let musicRequest : Obj := <["outputFormat" := outputFormat]> params in
  let log' := logged log (Invoke "generateMusic") in
  match musicApi_generateMusic musicRequest log with
  | Throw error => (failed "Failed to generate music" error, log')
  | Return outputFile =>
      if is_string (read config "resourceMode") RESOURCE_MODE_URL then
        (textResult ("Success. Music URL: " +:+ ToString outputFile), log')
      else
        (textResult ("Success. Music saved as: " +:+ ToString outputFile), log')
  end.

(** The handler registered by [registerVoiceDesignTool]. *)
Definition voice_design (config params : Obj) (log : list Event)
  : ToolResult * list Event :=
  let log' := logged log (Invoke "voiceDesign") in
  match voiceDesignApi_voiceDesign params log with
  | Throw error => (failed "Failed to design voice" error, log')
  | Return result =>
      let voiceId := read result "voiceId" in
      let outputFile := read result "outputFile" in
      if is_string (read config "resourceMode") RESOURCE_MODE_URL then
        (textResult ("Success. Voice ID: " +:+ ToString voiceId
                     +:+ ". Voice URL: " +:+ ToString outputFile), log')
      else
        (textResult ("Success. Voice ID: " +:+ ToString voiceId
                     +:+ ". Voice saved as: " +:+ ToString outputFile), log')
  end.

End Tools.

End MCPServer.

(** ** The REST server: [MCPRestServer] ([src/mcp-rest-server.ts]) *)

Module MCPRestServer.

(** Retry configuration *)
Definition MAX_RETRY_ATTEMPTS : nat := 3.
Definition RETRY_DELAY : Z := 1000.

(** [Math.pow(2, n)] for the exponents that occur, [attempt - 1] with
    [attempt] counted from 1. *)
Definition Math_pow (base : Z) (exponent : nat) : Z := base ^ Z.of_nat exponent.

(** Request envelopes, tool arguments and adapter results are JSON-like
    values that the server reads by value. An array is an object with its
    indices as keys: nothing here tells the two apart. *)
#[warnings="-register-all"]
Inductive JsVal : Type :=
  | JUndefined
  | JNull
  | JBool (b : bool)
  | JNum (n : Z)
  | JStr (s : string)
  | JObj (props : gmap string JsVal).

Definition truthy (v : JsVal) : bool :=
  match v with
  | JUndefined | JNull => false
  | JBool b => b
  | JNum n => negb (n =? 0)
  | JStr s => negb (String.eqb s "")
  | JObj _ => true
  end.

Definition nullish (v : JsVal) : bool :=
  match v with
  | JUndefined | JNull => true
  | _ => false
  end.

(** [typeof v === 'object'] *)
Definition typeof_object (v : JsVal) : bool :=
  match v with
  | JNull | JObj _ => true
  | _ => false
  end.

(** [v === s] for a string [s] *)
Definition is_string (v : JsVal) (s : string) : bool :=
  match v with
  | JStr s' => String.eqb s' s
  | _ => false
  end.

(** [a || b] *)
Definition or_else (a b : JsVal) : JsVal := if truthy a then a else b.

(** The value of [v.k] when [v] is neither [undefined] nor [null]. The
    keys the server reads are never built-in property names, so a
    primitive has none of them. *)
Definition prop (v : JsVal) (k : string) : JsVal :=
  match v with
  | JObj props => default JUndefined (props !! k)
  | _ => JUndefined
  end.

(** [v?.k] *)
Definition optGet (v : JsVal) (k : string) : JsVal :=
  if nullish v then JUndefined else prop v k.

(** The own enumerable properties [Object.assign] copies from a source. *)
Definition ownProps (v : JsVal) : gmap string JsVal :=
  match v with
  | JObj props => props
  | JStr s => string_props JStr s
  | _ => ∅
  end.

(** What a handler answers: the adapter's result as it is, or a tool
    result built by the handler. *)
Inductive Reply : Type :=
  | FromService (result : JsVal)
  | Tool (result : ToolResult).

Section Server.
(** The language's [String(v)], the message of a [TypeError] (by the
    property or method involved) and the clock. *)
Variable ToString : JsVal → string.
Variable typeErrorMessage : string → string.
Variable Date_now : list Event → Z.

(** [this.config], the server's baseline configuration. *)
Variable this_config : JsVal.

(** [ConfigManager] ([src/config/ConfigManager.ts]), the adapter
    constructors and the methods of the media service
    ([src/services/media-service.ts]). A method's completion may depend
    on its receiver, its argument and what happened before. *)
Variable ConfigManager_getConfig : JsVal → JsVal → Outcome JsVal.
Variable ConfigManager_extractConfigFromMetaAuth : JsVal → Outcome JsVal.
Variables (MiniMaxAPI MediaService : Type).
Variable new_MiniMaxAPI : JsVal → Outcome MiniMaxAPI.
Variable new_MediaService : MiniMaxAPI → Outcome MediaService.
Variable mediaService_call :
  MediaService → string → JsVal → list Event → Outcome JsVal.

(** [v.k]: a [TypeError] when [v] is [undefined] or [null]. *)
Definition get (v : JsVal) (k : string) : Outcome JsVal :=
  if nullish v then Throw (ErrorObj (typeErrorMessage k)) else Return (prop v k).

(** [o.k = v] in strict code: a [TypeError] unless [o] is an object. *)
Definition set (o : JsVal) (k : string) (v : JsVal) : Outcome JsVal :=
  match o with
  | JObj props => Return (JObj (<[k := v]> props))
  | _ => Throw (ErrorObj (typeErrorMessage k))
  end.

(** [await mediaService.method(args)] *)
Definition call (mediaService : MediaService) (method : string)
    (args : JsVal) (log : list Event) : Outcome JsVal * list Event :=
  (mediaService_call mediaService method args log, logged log (Invoke method)).

(** [await new Promise(resolve => setTimeout(resolve, ms))] *)
Definition setTimeout (ms : Z) (log : list Event) : list Event :=
  logged log (Sleep ms).

(** *** Credential extraction *)

(** [request.params?._meta?.auth] and [request.params?.meta?.auth], given
    [request.params]. *)
Definition primaryAuth (params : JsVal) : JsVal :=
  optGet (optGet params "_meta") "auth".

Definition fallbackAuth (params : JsVal) : JsVal :=
  optGet (optGet params "meta") "auth".

Definition extractApiKeyFromRequest (request : JsVal) : Outcome JsVal :=
  params ← get request "params";
  let metaAuth := or_else (primaryAuth params) (fallbackAuth params) in
  if truthy (optGet metaAuth "api_key") then Return (prop metaAuth "api_key")
  else if truthy (optGet metaAuth "apiKey") then Return (prop metaAuth "apiKey")
  else Return JUndefined.

(** The body of the [try] block of [extractRequestConfig], from the empty
    [config] to the [config] it leaves. *)
Definition extractRequestConfig_try (request : JsVal) : Outcome (gmap string JsVal) :=
  let config : gmap string JsVal := ∅ in
  params ← get request "params";
  let metaAuth := primaryAuth params in
  let metaAuth :=
    if negb (truthy metaAuth) && truthy (fallbackAuth params)
    then fallbackAuth params else metaAuth in
  if truthy metaAuth && typeof_object metaAuth then
    metaAuthConfig ← ConfigManager_extractConfigFromMetaAuth metaAuth;
    if truthy metaAuthConfig then Return (ownProps metaAuthConfig ∪ config)
    else Return config
  else Return config.

(** [extractRequestConfig]: a failure inside the [try] block leaves
    [config] as it was created, empty. *)
Definition extractRequestConfig (request : JsVal) : Outcome JsVal :=
  try_catch (config ← extractRequestConfig_try request; Return (JObj config))
            (λ error, Return (JObj ∅)).

Definition getRequestConfig (request : JsVal) : Outcome JsVal :=
  requestConfig ← extractRequestConfig request;
  ConfigManager_getConfig requestConfig this_config.

(** *** Tool handlers

    A handler takes the log of what happened so far and returns its
    completion with the extended log. [attempt] defaults to 1 and is
    otherwise only passed by the handler to itself. *)

Equations handleTextToAudio (args : JsVal) (api : MiniMaxAPI)
    (mediaService : MediaService) (attempt : nat) (log : list Event)
  : Outcome Reply * list Event
  by wf (MAX_RETRY_ATTEMPTS - attempt)%nat lt :=
handleTextToAudio args api mediaService attempt log
  with call mediaService "generateSpeech" args log := {
  | (Return result, log1) := (Return (FromService result), log1);
  | (Throw error, log1) with lt_dec attempt MAX_RETRY_ATTEMPTS := {
    | left _ :=
        handleTextToAudio args api mediaService (attempt + 1)
          (setTimeout (RETRY_DELAY * Math_pow 2 (attempt - 1)) log1);
    | right _ := (Throw (wrapError "Failed to generate speech" error), log1) } }.
Next Obligation. lia. Qed.

Equations handleListVoices (args : JsVal) (api : MiniMaxAPI)
    (mediaService : MediaService) (attempt : nat) (log : list Event)
  : Outcome Reply * list Event
  by wf (MAX_RETRY_ATTEMPTS - attempt)%nat lt :=
handleListVoices args api mediaService attempt log
  with call mediaService "listVoices" args log := {
  | (Return result, log1) := (Return (FromService result), log1);
  | (Throw error, log1) with lt_dec attempt MAX_RETRY_ATTEMPTS := {
    | left _ :=
        handleListVoices args api mediaService (attempt + 1)
          (setTimeout (RETRY_DELAY * Math_pow 2 (attempt - 1)) log1);
    | right _ := (Throw (wrapError "Failed to list voices" error), log1) } }.
Next Obligation. lia. Qed.

(** [handlePlayAudio] only builds its answer: the adapter is not involved. *)
Definition handlePlayAudio (args : JsVal) (log : list Event)
  : Outcome Reply * list Event :=
  (try_catch
     (inputFilePath ← get args "inputFilePath";
      Return (Tool (textResult ("Playing audio: " +:+ ToString inputFilePath))))
     (λ error, Throw (wrapError "Failed to play audio" error)),
   log).

Equations handleTextToImage (args : JsVal) (api : MiniMaxAPI)
    (mediaService : MediaService) (attempt : nat) (log : list Event)
  : Outcome Reply * list Event
  by wf (MAX_RETRY_ATTEMPTS - attempt)%nat lt :=
handleTextToImage args api mediaService attempt log
  with call mediaService "generateImage" args log := {
  | (Return result, log1) := (Return (FromService result), log1);
  | (Throw error, log1) with lt_dec attempt MAX_RETRY_ATTEMPTS := {
    | left _ :=
        handleTextToImage args api mediaService (attempt + 1)
          (setTimeout (RETRY_DELAY * Math_pow 2 (attempt - 1)) log1);
    | right _ := (Throw (wrapError "Failed to generate image" error), log1) } }.
Next Obligation. lia. Qed.

Equations handleGenerateVideo (args : JsVal) (api : MiniMaxAPI)
    (mediaService : MediaService) (attempt : nat) (log : list Event)
  : Outcome Reply * list Event
  by wf (MAX_RETRY_ATTEMPTS - attempt)%nat lt :=
handleGenerateVideo args api mediaService attempt log
  with call mediaService "generateVideo" args log := {
  | (Return result, log1) := (Return (FromService result), log1);
  | (Throw error, log1) with lt_dec attempt MAX_RETRY_ATTEMPTS := {
    | left _ :=
        handleGenerateVideo args api mediaService (attempt + 1)
          (setTimeout (RETRY_DELAY * Math_pow 2 (attempt - 1)) log1);
    | right _ := (Throw (wrapError "Failed to generate video" error), log1) } }.
Next Obligation. lia. Qed.

(** [handleVoiceClone]: a real-name verification error is answered at once,
    before the retry test. *)
Equations handleVoiceClone (args : JsVal) (api : MiniMaxAPI)
    (mediaService : MediaService) (attempt : nat) (log : list Event)
  : Outcome Reply * list Event
  by wf (MAX_RETRY_ATTEMPTS - attempt)%nat lt :=
handleVoiceClone args api mediaService attempt log
  with call mediaService "cloneVoice" args log := {
  | (Return result, log1) := (Return (FromService result), log1);
  | (Throw error, log1) with isVerificationError (errorMessage error) := {
    | true := (Return (Tool (textResult verificationGuidance)), log1);
    | false with lt_dec attempt MAX_RETRY_ATTEMPTS := {
      | left _ :=
          handleVoiceClone args api mediaService (attempt + 1)
            (setTimeout (RETRY_DELAY * Math_pow 2 (attempt - 1)) log1);
      | right _ := (Throw (wrapError "Failed to clone voice" error), log1) } } }.
Next Obligation. lia. Qed.

(** [args.prompt.substring(0, 20).replace(/[^\w]/g, '_')]: only a string has
    [substring]. *)
Definition promptPrefix (prompt : JsVal) : Outcome string :=
  match prompt with
  | JStr s => Return (filePrefix s)
  | _ => Throw (ErrorObj (typeErrorMessage "substring"))
  end.

(** The defaulting of [args.model] in [handleImageToVideo]. [args] is updated
    in place; the updated object is returned. *)
Definition ensureModel (args : JsVal) : Outcome JsVal :=
  model ← get args "model";
  if negb (truthy model) then set args "model" (JStr "I2V-01") else Return args.

(** The generation of [args.outputFile] in [handleImageToVideo]. *)
Definition ensureOutputFile (args : JsVal) (log : list Event) : Outcome JsVal :=
  if negb (truthy (prop args "outputFile")) then
    promptPrefix ← promptPrefix (prop args "prompt");
    set args "outputFile"
      (JStr ("i2v_" +:+ promptPrefix +:+ "_" +:+ ToString (JNum (Date_now log))))
  else Return args.

(** The [try] block of [handleImageToVideo]: its completion, [args] as the
    block leaves it (its updates outlive a failure) and the log. *)
Definition imageToVideo_try (args : JsVal) (mediaService : MediaService)
    (log : list Event) : Outcome JsVal * JsVal * list Event :=
  match ensureModel args with
  | Throw error => (Throw error, args, log)
  | Return args1 =>
      if negb (truthy (prop args1 "firstFrameImage")) then
        (Throw (ErrorObj "Missing required parameter: firstFrameImage"), args1, log)
      else
        match ensureOutputFile args1 log with
        | Throw error => (Throw error, args1, log)
        | Return args2 =>
            let '(result, log1) := call mediaService "generateVideo" args2 log in
            (result, args2, log1)
        end
  end.

Equations handleImageToVideo (args : JsVal) (api : MiniMaxAPI)
    (mediaService : MediaService) (attempt : nat) (log : list Event)
  : Outcome Reply * list Event
  by wf (MAX_RETRY_ATTEMPTS - attempt)%nat lt :=
handleImageToVideo args api mediaService attempt log
  with imageToVideo_try args mediaService log := {
  | (Return result, _, log1) := (Return (FromService result), log1);
  | (Throw error, args1, log1) with lt_dec attempt MAX_RETRY_ATTEMPTS := {
    | left _ :=
        handleImageToVideo args1 api mediaService (attempt + 1)
          (setTimeout (RETRY_DELAY * Math_pow 2 (attempt - 1)) log1);
    | right _ := (Throw (wrapError "Failed to generate video" error), log1) } }.
Next Obligation. lia. Qed.

(** The last three handlers declare [attempt] and never read it. *)
Definition handleVideoGenerationQuery (args : JsVal) (api : MiniMaxAPI)
    (mediaService : MediaService) (attempt : nat) (log : list Event)
  : Outcome Reply * list Event :=
  match call mediaService "queryVideoGeneration" args log with
  | (Return result, log1) => (Return (FromService result), log1)
  | (Throw error, log1) =>
      (Throw (wrapError "Failed to query video generation" error), log1)
  end.

Definition handleGenerateMusic (args : JsVal) (api : MiniMaxAPI)
    (mediaService : MediaService) (attempt : nat) (log : list Event)
  : Outcome Reply * list Event :=
  match call mediaService "generateMusic" args log with
  | (Return result, log1) => (Return (FromService result), log1)
  | (Throw error, log1) => (Throw (wrapError "Failed to generate music" error), log1)
  end.

Definition handleVoiceDesign (args : JsVal) (api : MiniMaxAPI)
    (mediaService : MediaService) (attempt : nat) (log : list Event)
  : Outcome Reply * list Event :=
  match call mediaService "designVoice" args log with
  | (Return result, log1) => (Return (FromService result), log1)
  | (Throw error, log1) => (Throw (wrapError "Failed to design voice" error), log1)
  end.

(** *** The dispatcher: the [CallToolRequestSchema] handler *)

(** The names the [switch] routes. *)
Definition routedTools : list string :=
  ["text_to_audio"; "list_voices"; "play_audio"; "text_to_image";
   "generate_video"; "voice_clone"; "image_to_video";
   "query_video_generation"; "music_generation"; "voice_design"].

(** [`${apiKey.substring(0, 4)}****${apiKey.substring(apiKey.length - 4)}`] or
    ['not provided']; only a string has [substring]. *)
Definition maskedKey (apiKey : JsVal) : Outcome string :=
  if truthy apiKey then
    match apiKey with
    | JStr s =>
        Return (String.substring 0 4 s +:+ "****" +:+
                String.substring (String.length s - 4) 4 s)
    | _ => Throw (ErrorObj (typeErrorMessage "substring"))
    end
  else Return "not provided".

(** What the [try] block sets up before the [switch]. *)
Definition prepareRequest (request : JsVal) : Outcome (MiniMaxAPI * MediaService) :=
  requestConfig ← getRequestConfig request;
  requestApi ← new_MiniMaxAPI requestConfig;
  mediaService ← new_MediaService requestApi;
  apiKey ← extractApiKeyFromRequest request;
  _ ← maskedKey apiKey;
  Return (requestApi, mediaService).

(** The [switch] on the tool name; [attempt] takes its default. *)
Definition route (toolName toolParams : JsVal) (requestApi : MiniMaxAPI)
    (mediaService : MediaService) (log : list Event) : Outcome Reply * list Event :=
  if is_string toolName "text_to_audio" then
    handleTextToAudio toolParams requestApi mediaService 1 log
  else if is_string toolName "list_voices" then
    handleListVoices toolParams requestApi mediaService 1 log
  else if is_string toolName "play_audio" then
    handlePlayAudio toolParams log
  else if is_string toolName "text_to_image" then
    handleTextToImage toolParams requestApi mediaService 1 log
  else if is_string toolName "generate_video" then
    handleGenerateVideo toolParams requestApi mediaService 1 log
  else if is_string toolName "voice_clone" then
    handleVoiceClone toolParams requestApi mediaService 1 log
  else if is_string toolName "image_to_video" then
    handleImageToVideo toolParams requestApi mediaService 1 log
  else if is_string toolName "query_video_generation" then
    handleVideoGenerationQuery toolParams requestApi mediaService 1 log
  else if is_string toolName "music_generation" then
    handleGenerateMusic toolParams requestApi mediaService 1 log
  else if is_string toolName "voice_design" then
    handleVoiceDesign toolParams requestApi mediaService 1 log
  else
    (Throw (ErrorObj ("Unknown tool: " +:+ ToString toolName)), log).

(** The handler itself. The two reads of [request.params] stand before the
    [try]; whatever the block throws is wrapped and thrown again. *)
Definition callTool (request : JsVal) (log : list Event) : Outcome Reply * list Event :=
  match params ← get request "params";
        toolName ← get params "tool";
        Return (toolName, or_else (prop params "params") (JObj ∅)) with
  | Throw error => (Throw error, log)
  | Return (toolName, toolParams) =>
      let wrap error :=
        Throw (wrapError ("Failed to call tool " +:+ ToString toolName) error) in
      match prepareRequest request with
      | Throw error => (wrap error, log)
      | Return (requestApi, mediaService) =>
          match route toolName toolParams requestApi mediaService log with
          | (Return reply, log1) => (Return reply, log1)
          | (Throw error, log1) => (wrap error, log1)
          end
      end
  end.

(** *** Resources and prompts

    The server offers neither: the list handlers answer with an empty list,
    the read handlers with an error, each after resolving the request's
    configuration. *)

Definition listResources (request : JsVal) : Outcome (list JsVal) :=
  try_catch (requestConfig ← getRequestConfig request; Return [])
            (λ error, Throw (wrapError "Failed to get resource list" error)).

Definition readResource (request : JsVal) : Outcome JsVal :=
  try_catch
    (requestConfig ← getRequestConfig request;
     params ← get request "params";
     uri ← get params "uri";
     Throw (ErrorObj ("Resource does not exist: " +:+ ToString uri)))
    (λ error, Throw (wrapError "Failed to read resource" error)).

Definition listPrompts (request : JsVal) : Outcome (list JsVal) :=
  try_catch (requestConfig ← getRequestConfig request; Return [])
            (λ error, Throw (wrapError "Failed to get prompt list" error)).

Definition getPrompt (request : JsVal) : Outcome JsVal :=
  try_catch
    (requestConfig ← getRequestConfig request;
     params ← get request "params";
     name ← get params "name";
     Throw (ErrorObj ("Prompt does not exist: " +:+ ToString name)))
    (λ error, Throw (wrapError "Failed to get prompt" error)).

(** *** The server's own configuration *)

(** Constants of [src/const/index.ts]. *)
Variable TRANSPORT_MODE_REST : string.
Variables (DEFAULT_SERVER_PORT DEFAULT_SERVER_ENDPOINT : JsVal).

(** "Ensure REST transport mode is used", as [updateConfig] does it: the
    mode of an existing [server] is overwritten. *)
Definition forceRestMode (config : JsVal) : Outcome JsVal :=
  server ← get config "server";
  if truthy server then
    server ← set server "mode" (JStr TRANSPORT_MODE_REST);
    set config "server" server
  else Return config.

(** [initializeConfig(customConfig)]: the configuration [this.config] is
    given. A missing [server] is created with the defaults. *)
Definition initializeConfig (customConfig : JsVal) : Outcome JsVal :=
  config ← ConfigManager_getConfig customConfig JUndefined;
  server ← get config "server";
  if truthy server then
    server ← set server "mode" (JStr TRANSPORT_MODE_REST);
    set config "server" server
  else
    set config "server"
      (JObj (<["mode" := JStr TRANSPORT_MODE_REST]>
            (<["port" := DEFAULT_SERVER_PORT]>
            (<["endpoint" := DEFAULT_SERVER_ENDPOINT]> ∅)))).

(** [updateConfig(newConfig)]: its completion and the configuration
    [this.config] is left with. [this.config] is assigned as soon as
    [ConfigManager] has merged; the adapters are rebuilt last. *)
Definition updateConfig (newConfig : JsVal)
  : Outcome (MiniMaxAPI * MediaService) * JsVal :=
  match ConfigManager_getConfig newConfig this_config with
  | Throw error => (Throw error, this_config)
  | Return config =>
      match forceRestMode config with
      | Throw error => (Throw error, config)
      | Return config =>
          (api ← new_MiniMaxAPI config;
           mediaService ← new_MediaService api;
           Return (api, mediaService),
           config)
      end
  end.

(** The port and the endpoint [start()] hands to the transport. *)
Definition transportOptions (config : JsVal) : Outcome (JsVal * JsVal) :=
  server ← get config "server";
  let port := or_else (optGet server "port") DEFAULT_SERVER_PORT in
  let endpoint := or_else (optGet server "endpoint") DEFAULT_SERVER_ENDPOINT in
  Return (port, endpoint).

End Server.

(** *** Reference behaviour, to state the properties against *)

(** What a retrying handler adds to the log when every attempt fails: three
    invocations with a delay of [RETRY_DELAY] and one of twice that between
    them. The last attempt starts after all but the last of these events. *)
Definition exhaustedTrace (method : string) : list Event :=
  [Invoke method; Sleep 1000; Invoke method; Sleep 2000; Invoke method].

Definition beforeLastAttempt (method : string) : list Event :=
  [Invoke method; Sleep 1000; Invoke method; Sleep 2000].

(** The routed tools whose handler retries, and those whose handler does
    not. *)
Definition retriedTools : list string :=
  ["text_to_audio"; "list_voices"; "text_to_image"; "generate_video";
   "voice_clone"; "image_to_video"].

Definition unretriedTools : list string :=
  ["play_audio"; "query_video_generation"; "music_generation"; "voice_design"].

(** What one dispatch may add to the log: at most [MAX_RETRY_ATTEMPTS]
    invocations, and no delay, the first delay, or the first and the second. *)
Definition withinBudget (added : list Event) : Prop :=
  (invocations added ≤ MAX_RETRY_ATTEMPTS)%nat ∧
  (delays added = [] ∨ delays added = [RETRY_DELAY] ∨
   delays added = [RETRY_DELAY; 2 * RETRY_DELAY]).

(** Arguments the [try] block hands to the media service as they are. *)
Definition ready (props : gmap string JsVal) : Prop :=
  truthy (prop (JObj props) "model") = true ∧
  truthy (prop (JObj props) "firstFrameImage") = true ∧
  truthy (prop (JObj props) "outputFile") = true.

(** The authentication fragment of a request with parameters [params]: the
    one under the primary path when there is one, else the one under the
    fallback path. *)
Definition selectedFragment (params : JsVal) : JsVal :=
  if truthy (primaryAuth params) then primaryAuth params else fallbackAuth params.

(** The API key of a fragment: [api_key] first, then [apiKey]. *)
Definition fragmentApiKey (fragment : JsVal) : JsVal :=
  if truthy (prop fragment "api_key") then prop fragment "api_key"
  else if truthy (prop fragment "apiKey") then prop fragment "apiKey"
  else JUndefined.

(** The configuration a fragment stands for: what [ConfigManager] makes of
    it when it is an object, and nothing otherwise or when that fails. *)
Definition fragmentConfig (extractConfigFromMetaAuth : JsVal → Outcome JsVal)
    (fragment : JsVal) : gmap string JsVal :=
  if truthy fragment && typeof_object fragment then
    match extractConfigFromMetaAuth fragment with
    | Return metaAuthConfig =>
        if truthy metaAuthConfig then ownProps metaAuthConfig else ∅
    | Throw _ => ∅
    end
  else ∅.

Arguments call {MediaService} mediaService_call mediaService method args log.
Arguments handleTextToAudio {MiniMaxAPI MediaService} mediaService_call
  args api mediaService attempt log.
Arguments handleListVoices {MiniMaxAPI MediaService} mediaService_call
  args api mediaService attempt log.
Arguments handleTextToImage {MiniMaxAPI MediaService} mediaService_call
  args api mediaService attempt log.
Arguments handleGenerateVideo {MiniMaxAPI MediaService} mediaService_call
  args api mediaService attempt log.
Arguments handleVoiceClone {MiniMaxAPI MediaService} mediaService_call
  args api mediaService attempt log.
Arguments imageToVideo_try ToString typeErrorMessage Date_now {MediaService}
  mediaService_call args mediaService log.
Arguments handleImageToVideo ToString typeErrorMessage Date_now
  {MiniMaxAPI MediaService} mediaService_call args api mediaService attempt log.
Arguments handleVideoGenerationQuery {MiniMaxAPI MediaService} mediaService_call
  args api mediaService attempt log.
Arguments handleGenerateMusic {MiniMaxAPI MediaService} mediaService_call
  args api mediaService attempt log.
Arguments handleVoiceDesign {MiniMaxAPI MediaService} mediaService_call
  args api mediaService attempt log.
Arguments prepareRequest typeErrorMessage this_config ConfigManager_getConfig
  ConfigManager_extractConfigFromMetaAuth {MiniMaxAPI MediaService}
  new_MiniMaxAPI new_MediaService request.
Arguments route ToString typeErrorMessage Date_now {MiniMaxAPI MediaService}
  mediaService_call toolName toolParams requestApi mediaService log.
Arguments callTool ToString typeErrorMessage Date_now this_config
  ConfigManager_getConfig ConfigManager_extractConfigFromMetaAuth
  {MiniMaxAPI MediaService} new_MiniMaxAPI new_MediaService mediaService_call
  request log.

(** *** The tool list: the [ListToolsRequestSchema] handler

    What the handler returns for every request, without the description
    texts: per tool its name, its arguments with their [required] flag, and
    the properties (with their type) and the [required] list of its input
    schema. *)
Record ToolInfo : Type := {
  tool_name : string;
  tool_arguments : list (string * bool);
  schema_properties : list (string * string);
  schema_required : list string;
}.

Definition listTools : list ToolInfo :=
  [ {| tool_name := "text_to_audio";
       tool_arguments :=
         [("text", true); ("outputDirectory", false); ("voiceId", false);
          ("model", false); ("speed", false); ("vol", false); ("pitch", false);
          ("emotion", false); ("format", false); ("sampleRate", false);
          ("bitrate", false); ("channel", false); ("languageBoost", false);
          ("subtitleEnable", false); ("outputFile", false)];
       schema_properties :=
         [("text", "string"); ("outputDirectory", "string"); ("voiceId", "string");
          ("model", "string"); ("speed", "number"); ("vol", "number");
          ("pitch", "number"); ("emotion", "string"); ("format", "string");
          ("sampleRate", "number"); ("bitrate", "number"); ("channel", "number");
          ("languageBoost", "string"); ("subtitleEnable", "boolean");
          ("outputFile", "string")];
       schema_required := ["text"] |};
    {| tool_name := "list_voices";
       tool_arguments := [("voiceType", false)];
       schema_properties := [("voiceType", "string")];
       schema_required := ["voiceType"] |};
    {| tool_name := "play_audio";
       tool_arguments := [("inputFilePath", true); ("isUrl", false)];
       schema_properties := [("inputFilePath", "string"); ("isUrl", "boolean")];
       schema_required := ["inputFilePath"] |};
    {| tool_name := "text_to_image";
       tool_arguments :=
         [("prompt", true); ("model", false); ("aspectRatio", false); ("n", false);
          ("promptOptimizer", false); ("outputDirectory", false);
          ("outputFile", false)];
       schema_properties :=
         [("prompt", "string"); ("model", "string"); ("aspectRatio", "string");
          ("n", "number"); ("promptOptimizer", "boolean");
          ("outputDirectory", "string"); ("outputFile", "string")];
       schema_required := ["prompt"] |};
    {| tool_name := "generate_video";
       tool_arguments :=
         [("prompt", true); ("model", false); ("firstFrameImage", false);
          ("outputDirectory", false); ("outputFile", false); ("async_mode", false);
          ("resolution", false); ("duration", false)];
       schema_properties :=
         [("prompt", "string"); ("model", "string"); ("firstFrameImage", "string");
          ("outputDirectory", "string"); ("outputFile", "string");
          ("async_mode", "boolean"); ("resolution", "string");
          ("duration", "number")];
       schema_required := ["prompt"] |};
    {| tool_name := "voice_clone";
       tool_arguments :=
         [("voiceId", true); ("audioFile", true); ("text", false);
          ("outputDirectory", false); ("isUrl", false)];
       schema_properties :=
         [("voiceId", "string"); ("audioFile", "string"); ("text", "string");
          ("outputDirectory", "string"); ("isUrl", "boolean")];
       schema_required := ["voiceId"; "audioFile"] |};
    {| tool_name := "image_to_video";
       tool_arguments :=
         [("prompt", true); ("firstFrameImage", true); ("model", false);
          ("outputDirectory", false); ("outputFile", false); ("async_mode", false)];
       schema_properties :=
         [("prompt", "string"); ("firstFrameImage", "string"); ("model", "string");
          ("outputDirectory", "string"); ("outputFile", "string");
          ("async_mode", "boolean")];
       schema_required := ["prompt"; "firstFrameImage"] |};
    {| tool_name := "music_generation";
       tool_arguments :=
         [("prompt", true); ("lyrics", true); ("sampleRate", false);
          ("bitrate", false); ("format", false); ("outputDirectory", false)];
       schema_properties :=
         [("prompt", "string"); ("lyrics", "string"); ("sampleRate", "number");
          ("bitrate", "number"); ("format", "string");
          ("outputDirectory", "string")];
       schema_required := ["prompt"; "lyrics"] |};
    {| tool_name := "voice_design";
       tool_arguments :=
         [("prompt", true); ("previewText", true); ("voiceId", false);
          ("outputDirectory", false)];
       schema_properties :=
         [("prompt", "string"); ("previewText", "string"); ("voiceId", "string");
          ("outputDirectory", "string")];
       schema_required := ["prompt"; "previewText"] |} ].

(** The service method each routed tool's handler calls; [play_audio] calls
    none. *)
Definition routingTable : list (string * string) :=
  [("text_to_audio", "generateSpeech"); ("list_voices", "listVoices");
   ("text_to_image", "generateImage"); ("generate_video", "generateVideo");
   ("voice_clone", "cloneVoice"); ("image_to_video", "generateVideo");
   ("query_video_generation", "queryVideoGeneration");
   ("music_generation", "generateMusic"); ("voice_design", "designVoice")].

Arguments updateConfig typeErrorMessage this_config ConfigManager_getConfig
  {MiniMaxAPI MediaService} new_MiniMaxAPI new_MediaService TRANSPORT_MODE_REST
  newConfig.

End MCPRestServer.

(** ** The adapters under [src/api]: [MusicAPI.generateMusic] and
    [VoiceDesignAPI.voiceDesign] as wholes *)

Module MediaAdapters.
Import MCPRestServer.

(** What an adapter does to the outside: a request posted to an endpoint, a
    directory made, a file written. A trace lists them oldest first. *)
Inductive Effect (Buffer : Type) : Type :=
  | Posted (endpoint : string)
  | MadeDir (dir : string)
  | Wrote (file : string) (data : Buffer).
Arguments Posted {Buffer} endpoint.
Arguments MadeDir {Buffer} dir.
Arguments Wrote {Buffer} file data.

(** [VoiceDesignRequest] *)
Record VoiceDesignRequest : Type := {
  vd_prompt : string;
  vd_previewText : string;
  vd_voiceId : option string;
  vd_outputDirectory : option string;
}.

(** The body of a posted request. *)
Inductive Body : Type :=
  | MusicBody (requestData : MusicAPI.RequestData)
  | VoiceDesignBody (prompt preview_text : string) (voice_id : option string).

Section Adapters.
(** Constants of [src/const/index.ts]. *)
Variables (DEFAULT_FORMAT DEFAULT_MUSIC_MODEL ERROR_PROMPT_REQUIRED
           ERROR_LYRICS_REQUIRED ERROR_PREVIEW_TEXT_REQUIRED
           RESOURCE_MODE_URL : string).

(** The language's [String(error)] and [Buffer.from(data, 'hex')], the clock,
    the HTTP client ([src/utils/api.ts]), [buildOutputFile]
    ([src/utils/file.ts]) and the [path] and [fs] modules. *)
Variable Buffer : Type.
Variable String_of_error : Exn → string.
Variable Buffer_from_hex : JsVal → Outcome Buffer.
Variable Date_now : list (Effect Buffer) → Z.
Variable api_post : string → Body → list (Effect Buffer) → Outcome JsVal.
Variable buildOutputFile :
  string → option string → string → list (Effect Buffer) → Outcome string.
Variable path_dirname : string → string.
Variable fs_existsSync : string → list (Effect Buffer) → bool.
Variable fs_mkdirSync : string → list (Effect Buffer) → Outcome unit.
Variable fs_writeFileSync : string → Buffer → list (Effect Buffer) → Outcome unit.

(** [throw new MinimaxRequestError(`Failed to save audio file: ${String(error)}`)] *)
Definition saveFailed {A} (error : Exn) : Outcome A :=
  Throw (ErrorObj ("Failed to save audio file: " +:+ String_of_error error)).

(** The "decode and save file" block both adapters end with: whatever it
    throws is thrown again as a save failure. *)
Definition saveAudio (outputFile : string) (audioData : JsVal)
    (trace : list (Effect Buffer)) : Outcome unit * list (Effect Buffer) :=
  match Buffer_from_hex audioData with
  | Throw error => (saveFailed error, trace)
  | Return audioBuffer =>
      let outputDir := path_dirname outputFile in
      let made :=
        if negb (fs_existsSync outputDir trace) then
          match fs_mkdirSync outputDir trace with
          | Throw error => (Throw error, trace)
          | Return _ => (Return (), (trace ++ [MadeDir outputDir])%list)
          end
        else (Return (), trace) in
      match made with
      | (Throw error, trace1) => (saveFailed error, trace1)
      | (Return _, trace1) =>
          match fs_writeFileSync outputFile audioBuffer trace1 with
          | Throw error => (saveFailed error, trace1)
          | Return _ => (Return (), (trace1 ++ [Wrote outputFile audioBuffer])%list)
          end
      end
  end.

(** [request.format || DEFAULT_FORMAT] *)
Definition formatOrDefault (format : option string) : string :=
  match format with
  | Some f => if String.eqb f "" then DEFAULT_FORMAT else f
  | None => DEFAULT_FORMAT
  end.

(** [MusicAPI.generateMusic]. The checks and the request data are those of
    [MusicAPI.generateMusic_requestData]; the output file is named before the
    request is posted. *)
Definition generateMusic (request : MusicAPI.MusicGenerationRequest)
    (trace : list (Effect Buffer)) : Outcome JsVal * list (Effect Buffer) :=
  match MusicAPI.generateMusic_requestData DEFAULT_MUSIC_MODEL ERROR_PROMPT_REQUIRED
          ERROR_LYRICS_REQUIRED RESOURCE_MODE_URL request with
  | Throw error => (Throw error, trace)
  | Return requestData =>
      let textPrefix := filePrefix (MusicAPI.prompt request) in
      let format := formatOrDefault (MusicAPI.format request) in
      let fileName := "music_" +:+ textPrefix +:+ "_" +:+ pretty (Date_now trace) in
      match buildOutputFile fileName (MusicAPI.outputDirectory request) format trace with
      | Throw error => (Throw error, trace)
      | Return outputFile =>
          let trace1 := (trace ++ [Posted "/v1/music_generation"])%list in
          match api_post "/v1/music_generation" (MusicBody requestData) trace with
          | Throw error => (Throw error, trace1)
          | Return response =>
              let audioData := optGet (optGet response "data") "audio" in
              if negb (truthy audioData) then
                (Throw (ErrorObj "Could not get audio data from response"), trace1)
              else if bool_decide (MusicAPI.outputFormat request = Some RESOURCE_MODE_URL) then
                (Return audioData, trace1)
              else
                match saveAudio outputFile audioData trace1 with
                | (Throw error, trace2) => (Throw error, trace2)
                | (Return _, trace2) => (Return (JStr outputFile), trace2)
                end
          end
      end
  end.

(** [VoiceDesignAPI.voiceDesign]: it returns [{ voiceId, outputFile }]. *)
Definition voiceDesign (request : VoiceDesignRequest)
    (trace : list (Effect Buffer)) : Outcome (JsVal * string) * list (Effect Buffer) :=
  if String.eqb (vd_prompt request) "" || String.eqb (trim (vd_prompt request)) "" then
    (Throw (ErrorObj ERROR_PROMPT_REQUIRED), trace)
  else if String.eqb (vd_previewText request) ""
          || String.eqb (trim (vd_previewText request)) "" then
    (Throw (ErrorObj ERROR_PREVIEW_TEXT_REQUIRED), trace)
  else
    let textPrefix := filePrefix (vd_prompt request) in
    let fileName :=
      "voice_design_" +:+ textPrefix +:+ "_" +:+ pretty (Date_now trace) in
    match buildOutputFile fileName (vd_outputDirectory request) "mp3" trace with
    | Throw error => (Throw error, trace)
    | Return outputFile =>
        let trace1 := (trace ++ [Posted "/v1/voice_design"])%list in
        match api_post "/v1/voice_design"
                (VoiceDesignBody (vd_prompt request) (vd_previewText request)
                   (vd_voiceId request)) trace with
        | Throw error => (Throw error, trace1)
        | Return response =>
            let trialAudioData := optGet response "trial_audio" in
            let voiceId := optGet response "voice_id" in
            if negb (truthy trialAudioData) then
              (Throw (ErrorObj "Could not get audio data from response"), trace1)
            else
              match saveAudio outputFile trialAudioData trace1 with
              | (Throw error, trace2) => (Throw error, trace2)
              | (Return _, trace2) => (Return (voiceId, outputFile), trace2)
              end
        end
    end.

End Adapters.

(** The requests posted and the files written in a trace. *)
Fixpoint posts {Buffer} (trace : list (Effect Buffer)) : list string :=
  match trace with
  | [] => []
  | Posted endpoint :: trace' => endpoint :: posts trace'
  | _ :: trace' => posts trace'
  end.

Fixpoint writes {Buffer} (trace : list (Effect Buffer)) : list string :=
  match trace with
  | [] => []
  | Wrote file _ :: trace' => file :: writes trace'
  | _ :: trace' => writes trace'
  end.

End MediaAdapters.

(** ** Sample inputs *)

Module Samples.

(** A music request between two sample rates (a tie), below every bit rate,
    above every channel count and with an unknown format. *)
Definition offGridRequest : MusicAPI.MusicGenerationRequest :=
  {| MusicAPI.prompt := "Pop music, sad";
     MusicAPI.lyrics := "[Verse] rain again";
     MusicAPI.sampleRate := Some 20000;
     MusicAPI.bitrate := Some 1;
     MusicAPI.format := Some "ogg";
     MusicAPI.channel := Some 5;
     MusicAPI.outputDirectory := None;
     MusicAPI.outputFormat := None |}.

(** A store with the server's configuration at reference 1, its [server]
    object at 2, a caller's override at 3 and the override's [server] object
    at 4:
    [{apiKey: 'A', apiHost: 'H', resourceMode: 'url', server: {mode: 'stdio', port: 3000, endpoint: '/rest'}}]
    and [{apiKey: '', apiHost: undefined, server: {mode: 'rest'}}]. *)
Definition sampleStore : gmap positive (gmap string MCPServer.Value) :=
  {[ 1%positive :=
       {[ "apiKey" := MCPServer.VStr "A"; "apiHost" := MCPServer.VStr "H";
          "resourceMode" := MCPServer.VStr "url";
          "server" := MCPServer.VRef 2 ]};
     2%positive :=
       {[ "mode" := MCPServer.VStr "stdio"; "port" := MCPServer.VNum 3000;
          "endpoint" := MCPServer.VStr "/rest" ]};
     3%positive :=
       {[ "apiKey" := MCPServer.VStr ""; "apiHost" := MCPServer.VUndefined;
          "server" := MCPServer.VRef 4 ]};
     4%positive := {[ "mode" := MCPServer.VStr "rest" ]} ]}.

(** A store whose configuration, at reference 1, has no [server]; the
    override at 3 brings the [server] object at 4. *)
Definition serverlessStore : gmap positive (gmap string MCPServer.Value) :=
  {[ 1%positive := {[ "apiKey" := MCPServer.VStr "A" ]};
     3%positive := {[ "server" := MCPServer.VRef 4 ]};
     4%positive := {[ "mode" := MCPServer.VStr "rest" ]} ]}.

(** [String(v)] for the values of the store. *)
Definition render (v : MCPServer.Value) : string :=
  match v with
  | MCPServer.VUndefined => "undefined"
  | MCPServer.VNull => "null"
  | MCPServer.VBool b => if b then "true" else "false"
  | MCPServer.VNum n => pretty n
  | MCPServer.VStr s => s
  | MCPServer.VRef _ => "[object Object]"
  end.

(** The [text_to_audio] handler with adapters that always succeed, the
    speech adapter answering [{audio: 'out.mp3'}], at a clock stopped at 0. *)
Definition text_to_audio_ok
  : gmap string MCPServer.Value → gmap string MCPServer.Value → list Event
    → ToolResult * list Event :=
  MCPServer.text_to_audio
    (MCPServer.VStr "male-qn-qingse") (MCPServer.VStr "speech-02-hd")
    (MCPServer.VNum 1) (MCPServer.VNum 1) (MCPServer.VNum 0)
    (MCPServer.VStr "happy") (MCPServer.VStr "mp3") (MCPServer.VNum 32000)
    (MCPServer.VNum 128000) (MCPServer.VNum 1) (MCPServer.VStr "auto")
    "API key is required" "url" render
    (λ method, method +:+ " is not a function") (λ _, 0)
    unit unit (λ _, Return ()) (λ _, Return ())
    (λ _ _ _, Return {[ "audio" := MCPServer.VStr "out.mp3" ]}).

(** A voice-clone adapter that always fails for want of a key, and one that
    reports the account as not verified. *)
Definition cloneVoice_no_key
  : gmap string MCPServer.Value → list Event → Outcome MCPServer.Value :=
  λ _ _, Throw (ErrorObj "API key is required").

Definition cloneVoice_forbidden
  : gmap string MCPServer.Value → list Event → Outcome MCPServer.Value :=
  λ _ _, Throw (ErrorObj "API Error: 2038-voice clone user forbidden").

(** [String(v)] for JSON-like values. *)
Definition renderJs (v : MCPRestServer.JsVal) : string :=
  match v with
  | MCPRestServer.JUndefined => "undefined"
  | MCPRestServer.JNull => "null"
  | MCPRestServer.JBool b => if b then "true" else "false"
  | MCPRestServer.JNum n => pretty n
  | MCPRestServer.JStr s => s
  | MCPRestServer.JObj _ => "[object Object]"
  end.

(** A media service that fails on every call as a network would, and one
    whose voice cloning reports the account as not verified. *)
Definition networkDown
  : unit → string → MCPRestServer.JsVal → list Event → Outcome MCPRestServer.JsVal :=
  λ _ _ _ _, Throw (ErrorObj "connect ECONNREFUSED").

Definition accountForbidden
  : unit → string → MCPRestServer.JsVal → list Event → Outcome MCPRestServer.JsVal :=
  λ _ _ _ _, Throw (ErrorObj "API Error: 2038-voice clone user forbidden").

(** A [ConfigManager] that lays the request configuration over the baseline
    and reads the API key of a fragment, and a baseline configuration. *)
Definition layOver (requestConfig baseline : MCPRestServer.JsVal)
  : Outcome MCPRestServer.JsVal :=
  Return (MCPRestServer.JObj
            (MCPRestServer.ownProps requestConfig ∪ MCPRestServer.ownProps baseline)).

Definition readFragment (metaAuth : MCPRestServer.JsVal) : Outcome MCPRestServer.JsVal :=
  Return (MCPRestServer.JObj
            {[ "apiKey" := MCPRestServer.or_else
                             (MCPRestServer.prop metaAuth "api_key")
                             (MCPRestServer.prop metaAuth "apiKey") ]}).

Definition baseline : MCPRestServer.JsVal :=
  MCPRestServer.JObj
    {[ "apiKey" := MCPRestServer.JStr "A"; "apiHost" := MCPRestServer.JStr "H";
       "resourceMode" := MCPRestServer.JStr "url" ]}.

(** The dispatcher over these, every adapter being constructible. *)
Definition callTool_networkDown
  : MCPRestServer.JsVal → list Event → Outcome MCPRestServer.Reply * list Event :=
  MCPRestServer.callTool renderJs (λ k, "Cannot read properties (reading " +:+ k +:+ ")")
    (λ _, 0) baseline layOver readFragment
    (λ _, Return ()) (λ _, Return ()) networkDown.

(** A request for a tool, with arguments, whose key travels under the primary
    path and another under the fallback path. *)
Definition requestFor (tool : string) (params : gmap string MCPRestServer.JsVal)
  : MCPRestServer.JsVal :=
  MCPRestServer.JObj
    {[ "params" := MCPRestServer.JObj
         {[ "tool" := MCPRestServer.JStr tool;
            "params" := MCPRestServer.JObj params;
            "_meta" := MCPRestServer.JObj
              {[ "auth" := MCPRestServer.JObj
                   {[ "api_key" := MCPRestServer.JStr "primary-key";
                      "apiKey" := MCPRestServer.JStr "other-spelling" ]} ]};
            "meta" := MCPRestServer.JObj
              {[ "auth" := MCPRestServer.JObj
                   {[ "apiKey" := MCPRestServer.JStr "fallback-key" ]} ]} ]} ]}.

(** A media service that fails as a network would while fewer than [n]
    events have happened, and from then on answers with the output file it
    was asked for, ['out.mp3'] when it was asked for none. *)
Definition recoversAfter (n : nat)
  : unit → string → MCPRestServer.JsVal → list Event → Outcome MCPRestServer.JsVal :=
  λ _ _ args log,
    if (length log <? n)%nat then Throw (ErrorObj "connect ETIMEDOUT")
    else Return (MCPRestServer.or_else (MCPRestServer.prop args "outputFile")
                   (MCPRestServer.JStr "out.mp3")).

(** A clock that moves with every event. *)
Definition clock (log : list Event) : Z := 1700000000000 + Z.of_nat (length log).

(** The dispatcher over a service that answers at once. *)
Definition callTool_ok
  : MCPRestServer.JsVal → list Event → Outcome MCPRestServer.Reply * list Event :=
  MCPRestServer.callTool renderJs (λ k, "Cannot read properties (reading " +:+ k +:+ ")")
    clock baseline layOver readFragment
    (λ _, Return ()) (λ _, Return ()) (recoversAfter 0).

(** A request whose API key is a number. *)
Definition numericKeyRequest : MCPRestServer.JsVal :=
  MCPRestServer.JObj
    {[ "params" := MCPRestServer.JObj
         {[ "tool" := MCPRestServer.JStr "list_voices";
            "_meta" := MCPRestServer.JObj
              {[ "auth" := MCPRestServer.JObj
                   {[ "api_key" := MCPRestServer.JNum 12345678 ]} ]} ]} ]}.

(** For the adapters: [Buffer.from(data, 'hex')] with a buffer kept as the
    string it was read from, an HTTP client whose every response carries
    [audio] as its audio data, and a [buildOutputFile] that joins directory,
    name and extension. The output directory exists. *)
Definition hexBuffer (data : MCPRestServer.JsVal) : Outcome string :=
  match data with
  | MCPRestServer.JStr s => Return s
  | _ => Throw (ErrorObj "The first argument must be of type string")
  end.

Definition respondWith (audio : MCPRestServer.JsVal)
  : string → MediaAdapters.Body → list (MediaAdapters.Effect string)
    → Outcome MCPRestServer.JsVal :=
  λ _ _ _,
    Return (MCPRestServer.JObj
              {[ "data" := MCPRestServer.JObj {[ "audio" := audio ]};
                 "trial_audio" := audio;
                 "voice_id" := MCPRestServer.JStr "voice-1" ]}).

Definition outputPath (fileName : string) (outputDirectory : option string)
    (format : string) (trace : list (MediaAdapters.Effect string)) : Outcome string :=
  Return (default "/out" outputDirectory +:+ "/" +:+ fileName +:+ "." +:+ format).

Definition generateMusic_with (audio : MCPRestServer.JsVal)
  : MusicAPI.MusicGenerationRequest → list (MediaAdapters.Effect string)
    → Outcome MCPRestServer.JsVal * list (MediaAdapters.Effect string) :=
  MediaAdapters.generateMusic "mp3" "music-1.5" "Prompt is required"
    "Lyrics are required" "url" string errorMessage hexBuffer (λ _, 0)
    (respondWith audio) outputPath (λ _, "/out") (λ _ _, true)
    (λ _ _, Return ()) (λ _ _ _, Return ()).

Definition voiceDesign_with (audio : MCPRestServer.JsVal)
  : MediaAdapters.VoiceDesignRequest → list (MediaAdapters.Effect string)
    → Outcome (MCPRestServer.JsVal * string) * list (MediaAdapters.Effect string) :=
  MediaAdapters.voiceDesign "Prompt is required" "Preview text is required"
    string errorMessage hexBuffer (λ _, 0) (respondWith audio) outputPath
    (λ _, "/out") (λ _ _, true) (λ _ _, Return ()) (λ _ _ _, Return ()).

(** Music requests: one for a URL, one for a file, one with blank lyrics;
    and voice designs: a complete one and one with a blank preview text. *)
Definition musicRequest (lyrics : string) (outputFormat : option string)
  : MusicAPI.MusicGenerationRequest :=
  {| MusicAPI.prompt := "Pop music, sad";
     MusicAPI.lyrics := lyrics;
     MusicAPI.sampleRate := None;
     MusicAPI.bitrate := None;
     MusicAPI.format := None;
     MusicAPI.channel := None;
     MusicAPI.outputDirectory := None;
     MusicAPI.outputFormat := outputFormat |}.

Definition designRequest (previewText : string) : MediaAdapters.VoiceDesignRequest :=
  {| MediaAdapters.vd_prompt := "A calm narrator";
     MediaAdapters.vd_previewText := previewText;
     MediaAdapters.vd_voiceId := None;
     MediaAdapters.vd_outputDirectory := Some "/tmp" |}.

End Samples.

(** * Properties *)

(** ** The music adapter *)

Module MusicAPIProofs.
Import MusicAPI Samples.

Lemma arr_includes_elem_of (arr : list Z) (x : Z) :
  arr_includes arr x = true ↔ x ∈ arr.
Proof.
  unfold arr_includes. rewrite existsb_exists. split.
  - intros (y & Hin & Heq). apply Z.eqb_eq in Heq. subst y.
    by apply list_elem_of_In.
  - intros Hin. exists x. split; [by apply list_elem_of_In | apply Z.eqb_refl].
Qed.

(** One more element keeps the accumulator the first closest one. *)
Lemma closer_step (x acc curr : Z) (seen : list Z) :
  first_closest seen x acc →
  first_closest (seen ++ [curr]) x (closer x acc curr).
Proof.
  intros (before & after & -> & Hbefore & Hafter). unfold closer.
  destruct (Z.ltb_spec (Z.abs (curr - x)) (Z.abs (acc - x))) as [Hlt | Hge].
  - exists (before ++ acc :: after)%list, []. split; [done |]. split.
    + intros v [Hv | Hv]%elem_of_app.
      * specialize (Hbefore v Hv). lia.
      * apply elem_of_cons in Hv as [-> | Hv]; [lia |].
        specialize (Hafter v Hv). lia.
    + intros v Hv. by apply elem_of_nil in Hv.
  - exists before, (after ++ [curr])%list. split; [by rewrite <- app_assoc |].
    split; [done |].
    intros v [Hv | Hv]%elem_of_app; [by apply Hafter |].
    apply list_elem_of_singleton in Hv as ->. lia.
Qed.

Lemma fold_closer (x : Z) (rest seen : list Z) (acc : Z) :
  first_closest seen x acc →
  first_closest (seen ++ rest) x (fold_left (closer x) rest acc).
Proof.
  revert seen acc. induction rest as [| curr rest IH]; intros seen acc Hacc.
  - by rewrite app_nil_r.
  - cbn [fold_left]. replace (seen ++ curr :: rest)%list with ((seen ++ [curr]) ++ rest)%list
      by (by rewrite <- app_assoc).
    apply IH. by apply closer_step.
Qed.

(** The reduction of the helpers returns the first closest element. *)
Lemma reduce_closer (x first : Z) (rest : list Z) :
  ∃ r, reduce (closer x) (first :: rest) = Some r ∧
       first_closest (first :: rest) x r.
Proof.
  eexists. split; [reflexivity |].
  apply (fold_closer x rest [first] first).
  exists [], []. split; [done |].
  split; intros v Hv; by apply elem_of_nil in Hv.
Qed.

Lemma ensureValidSampleRate_coerced (input : option Z) :
  coerced [16000; 24000; 32000; 44100] 32000 input (ensureValidSampleRate input).
Proof.
  destruct input as [x |]; [| done]. cbn [coerced ensureValidSampleRate].
  destruct (arr_includes validSampleRates x) eqn:Hin; cbn [negb].
  - apply arr_includes_elem_of in Hin. by rewrite decide_True.
  - rewrite decide_False by (rewrite <- arr_includes_elem_of; unfold validSampleRates in Hin; congruence).
    destruct (reduce_closer x 16000 [24000; 32000; 44100]) as (r & Hr & Hclosest).
    unfold validSampleRates. by rewrite Hr.
Qed.

Lemma ensureValidBitrate_coerced (input : option Z) :
  coerced [32000; 64000; 128000; 256000] 128000 input (ensureValidBitrate input).
Proof.
  destruct input as [x |]; [| done]. cbn [coerced ensureValidBitrate].
  destruct (arr_includes validBitrates x) eqn:Hin; cbn [negb].
  - apply arr_includes_elem_of in Hin. by rewrite decide_True.
  - rewrite decide_False by (rewrite <- arr_includes_elem_of; unfold validBitrates in Hin; congruence).
    destruct (reduce_closer x 32000 [64000; 128000; 256000]) as (r & Hr & Hclosest).
    unfold validBitrates. by rewrite Hr.
Qed.

Lemma ensureValidChannel_coerced (input : option Z) :
  coerced [1; 2] 1 input (ensureValidChannel input).
Proof.
  destruct input as [x |]; [| done]. cbn [coerced ensureValidChannel].
  destruct (arr_includes validChannels x) eqn:Hin; cbn [negb].
  - apply arr_includes_elem_of in Hin. by rewrite decide_True.
  - rewrite decide_False by (rewrite <- arr_includes_elem_of; unfold validChannels in Hin; congruence).
    destruct (reduce_closer x 1 [2]) as (r & Hr & Hclosest).
    unfold validChannels. by rewrite Hr.
Qed.

Lemma ensureValidFormat_spec (input : option string) :
  ensureValidFormat input =
    match input with
    | Some f => if decide (f ∈ ["mp3"; "pcm"; "wav"]) then f else "mp3"
    | None => "mp3"
    end.
Proof.
  destruct input as [f |]; [| done]. cbn [ensureValidFormat].
  destruct (String.eqb_spec f "") as [-> | Hne]; [done |].
  unfold validFormats. cbn [existsb].
  destruct (String.eqb_spec f "mp3") as [-> | H1]; [done |].
  destruct (String.eqb_spec f "pcm") as [-> | H2]; [done |].
  destruct (String.eqb_spec f "wav") as [-> | H3]; [done |].
  cbn. rewrite decide_False; [done |].
  rewrite !elem_of_cons, elem_of_nil. tauto.
Qed.



(** The tie of the witness goes to the earlier element. *)
Example ensureValidSampleRate_tie : ensureValidSampleRate (Some 20000) = 16000.
Proof. reflexivity. Qed.

Example ensureValidBitrate_low : ensureValidBitrate (Some 1) = 32000.
Proof. reflexivity. Qed.

Example ensureValidChannel_high : ensureValidChannel (Some 5) = 2.
Proof. reflexivity. Qed.

End MusicAPIProofs.

(** ** The STDIO server: configuration updates *)

Module MCPServerProofs.
Import MCPServer.

Lemma objAt_lookup (σ : gmap loc (gmap string Value)) (l : loc) (o : gmap string Value) :
  σ !! l = Some o → objAt σ l = o.
Proof. unfold objAt. by intros ->. Qed.

Lemma read_lookup (o : gmap string Value) (k : string) (v : Value) :
  o !! k = Some v → read o k = v.
Proof. unfold read. by intros ->. Qed.

(** Allocation returns a reference that was free and touches nothing else. *)
Lemma alloc_spec (o : gmap string Value) (σ : gmap loc (gmap string Value)) :
  ∃ l, alloc o σ = (l, <[l := o]> σ) ∧ σ !! l = None.
Proof.
  unfold alloc. eexists. split; [reflexivity |].
  apply (not_elem_of_dom (D := gset positive)), is_fresh.
Qed.

(** The rewrite of [this.config.server] followed by [delete newConfig.server],
    seen from an allocated object. *)
Lemma lookup_delete_set (σ : gmap loc (gmap string Value)) (tc nc l : loc)
    (v : Value) (o : gmap string Value) :
  σ !! l = Some o →
  deleteProp nc "server" (setProp tc "server" v σ) !! l =
    Some ((if decide (nc = l) then delete "server" else id)
            ((if decide (tc = l) then insert "server" v else id) o)).
Proof.
  intros Hl. unfold deleteProp, setProp. rewrite !lookup_alter.
  repeat case_decide; subst; rewrite ?Hl; done.
Qed.

(** [mergeServer] keeps every object allocated and only ever writes the
    [server] property. *)
Lemma mergeServer_frame (σ : gmap loc (gmap string Value)) (tc nc l : loc)
    (o : gmap string Value) :
  σ !! l = Some o →
  ∃ o', mergeServer σ tc nc !! l = Some o' ∧
        ∀ f, f ≠ "server" → o' !! f = o !! f.
Proof.
  intros Hl. unfold mergeServer.
  assert (Hframe : ∀ σ' v, σ' !! l = Some o →
    ∃ o', deleteProp nc "server" (setProp tc "server" v σ') !! l = Some o' ∧
          ∀ f, f ≠ "server" → o' !! f = o !! f).
  { intros σ' v Hl'. eexists. split; [by apply lookup_delete_set |].
    intros f Hf. repeat case_decide; unfold id;
      rewrite ?lookup_delete_ne, ?lookup_insert_ne by done; done. }
  destruct (truthy (read (objAt σ nc) "server")); cbn [andb];
    [destruct (truthy (read (objAt σ tc) "server")) |].
  - destruct (alloc_spec (ownProps σ (read (objAt σ nc) "server")
                          ∪ ownProps σ (read (objAt σ tc) "server")) σ)
      as (l0 & -> & Hfresh).
    apply Hframe. rewrite lookup_insert_ne; [done | congruence].
  - by apply Hframe.
  - eauto.
Qed.

(** When [newConfig.server] is truthy, [mergeServer] leaves [newConfig]
    without a [server] property. *)
Lemma mergeServer_deletes (σ : gmap loc (gmap string Value)) (tc nc : loc)
    (n : gmap string Value) :
  σ !! nc = Some n →
  truthy (read n "server") = true →
  ∃ n', mergeServer σ tc nc !! nc = Some n' ∧ n' !! "server" = None.
Proof.
  intros Hnc Htruthy. unfold mergeServer.
  rewrite (objAt_lookup _ _ _ Hnc), Htruthy. cbn [andb].
  assert (Hdel : ∀ σ' v, σ' !! nc = Some n →
    ∃ n', deleteProp nc "server" (setProp tc "server" v σ') !! nc = Some n' ∧
          n' !! "server" = None).
  { intros σ' v Hl'. eexists. split; [by apply lookup_delete_set |].
    rewrite decide_True by done. apply lookup_delete_eq. }
  destruct (truthy (read (objAt σ tc) "server")).
  - destruct (alloc_spec (ownProps σ (read n "server")
                          ∪ ownProps σ (read (objAt σ tc) "server")) σ)
      as (l0 & -> & Hfresh).
    apply Hdel. rewrite lookup_insert_ne; [done | congruence].
  - by apply Hdel.
Qed.

(** The object [updateConfig] installs as [this.config], and the rest of the
    store: everything [mergeServer] left is still there. *)
Lemma updateConfig_spec (σ : gmap loc (gmap string Value)) (tc nc : loc) :
  let σ1 := mergeServer σ tc nc in
  let '(l, σ2) := updateConfig σ tc nc in
  σ2 !! l = Some (objAt σ1 nc ∪ objAt σ1 tc) ∧
  ∀ l' o, σ1 !! l' = Some o → σ2 !! l' = Some o.
Proof.
  cbn zeta. unfold updateConfig.
  destruct (alloc_spec (objAt (mergeServer σ tc nc) nc ∪ objAt (mergeServer σ tc nc) tc)
              (mergeServer σ tc nc)) as (l & -> & Hfresh).
  split; [apply lookup_insert_eq |].
  intros l' o Hl'. rewrite lookup_insert_ne; [done | congruence].
Qed.

(** C5, as the code has it. After [updateConfig], every top-level field of
    [this.config] other than [server] holds the override's value whenever the
    field is an own property of the override, whatever that value is (the
    empty string, and [undefined] too), and the existing value whenever the
    override has no such property. *)
Theorem updateConfig_own_fields_override (σ : gmap loc (gmap string Value))
    (tc nc : loc) (c n : gmap string Value) (f : string) :
  σ !! tc = Some c →
  σ !! nc = Some n →
  f ≠ "server" →
  ∃ o, (updateConfig σ tc nc).2 !! (updateConfig σ tc nc).1 = Some o ∧
       o !! f = match n !! f with
                | Some v => Some v
                | None => c !! f
                end.
Proof.
  intros Htc Hnc Hf.
  pose proof (updateConfig_spec σ tc nc) as Hspec. cbn zeta in Hspec.
  destruct (updateConfig σ tc nc) as [l σ2]. destruct Hspec as [Hl _].
  destruct (mergeServer_frame σ tc nc tc c Htc) as (c' & Hc' & Hframe_c).
  destruct (mergeServer_frame σ tc nc nc n Hnc) as (n' & Hn' & Hframe_n).
  rewrite (objAt_lookup _ _ _ Hc'), (objAt_lookup _ _ _ Hn') in Hl.
  eexists. split; [exact Hl |].
  rewrite lookup_union, Hframe_c, Hframe_n by done.
  destruct (n !! f), (c !! f); done.
Qed.

Lemma updateConfig_own_fields_override_witness :
  ∃ o, (updateConfig Samples.sampleStore 1 3).2
         !! (updateConfig Samples.sampleStore 1 3).1 = Some o ∧
       o !! "apiKey" = Some (VStr "").
Proof.
  destruct (updateConfig_own_fields_override Samples.sampleStore 1 3
              {[ "apiKey" := VStr "A"; "apiHost" := VStr "H";
                 "resourceMode" := VStr "url"; "server" := VRef 2 ]}
              {[ "apiKey" := VStr ""; "apiHost" := VUndefined;
                 "server" := VRef 4 ]}
              "apiKey") as (o & Ho & Hf); [reflexivity | reflexivity | discriminate |].
  exists o. split; [exact Ho | exact Hf].
Defined.

(** C5 as stated fails twice on the sample store: the override holds
    [apiHost: undefined], and the updated configuration reads [undefined]
    where the existing one read ['H']; and the override's [server] (object 4,
    without a port) is not what the updated configuration holds as [server]
    (a new object 5, with the existing port). *)
Lemma updateConfig_undefined_overrides :
  read (objAt Samples.sampleStore 3) "apiHost" = VUndefined ∧
  read (objAt Samples.sampleStore 1) "apiHost" = VStr "H" ∧
  read (objAt (updateConfig Samples.sampleStore 1 3).2
              (updateConfig Samples.sampleStore 1 3).1) "apiHost" = VUndefined ∧
  read (objAt Samples.sampleStore 3) "server" = VRef 4 ∧
  read (objAt (updateConfig Samples.sampleStore 1 3).2
              (updateConfig Samples.sampleStore 1 3).1) "server" = VRef 5 ∧
  read (objAt Samples.sampleStore 4) "port" = VUndefined ∧
  read (objAt (updateConfig Samples.sampleStore 1 3).2 5) "port" = VNum 3000.
Proof. vm_compute. repeat split. Qed.



(** C9. [updateConfig] mutates its argument: when [newConfig.server] is set
    (truthy), the caller's object has a [server] property before the call and
    none after it. *)
Theorem updateConfig_deletes_server_of_argument
    (σ : gmap loc (gmap string Value)) (tc nc : loc) (n : gmap string Value) :
  σ !! nc = Some n →
  truthy (read n "server") = true →
  is_Some (n !! "server") ∧
  ∃ n', (updateConfig σ tc nc).2 !! nc = Some n' ∧ n' !! "server" = None.
Proof.
  intros Hnc Htruthy. split.
  { unfold read in Htruthy. destruct (n !! "server"); [by eexists | done]. }
  pose proof (updateConfig_spec σ tc nc) as Hspec. cbn zeta in Hspec.
  destruct (updateConfig σ tc nc) as [l2 σ2]. destruct Hspec as [_ Hkeep].
  destruct (mergeServer_deletes σ tc nc n Hnc Htruthy) as (n' & Hn' & Hgone).
  exists n'. split; [by apply Hkeep | done].
Qed.

Lemma updateConfig_deletes_server_of_argument_witness :
  is_Some (({[ "apiKey" := VStr ""; "apiHost" := VUndefined; "server" := VRef 4 ]}
            : gmap string Value) !! "server") ∧
  ∃ n', (updateConfig Samples.sampleStore 1 3).2 !! 3%positive = Some n' ∧
        n' !! "server" = None.
Proof.
  apply (updateConfig_deletes_server_of_argument Samples.sampleStore 1 3
           {[ "apiKey" := VStr ""; "apiHost" := VUndefined; "server" := VRef 4 ]});
    reflexivity.
Defined.

(** ** The STDIO server: tool handlers *)

Section ToolFacts.
Variables (DEFAULT_VOICE_ID DEFAULT_SPEECH_MODEL DEFAULT_SPEED
           DEFAULT_VOLUME DEFAULT_PITCH DEFAULT_EMOTION DEFAULT_FORMAT
           DEFAULT_SAMPLE_RATE DEFAULT_BITRATE DEFAULT_CHANNEL
           DEFAULT_LANGUAGE_BOOST : Value).
Variables (ERROR_API_KEY_REQUIRED ERROR_API_HOST_REQUIRED
           RESOURCE_MODE_URL : string).
Variable ToString : Value → string.
Variable typeErrorMessage : string → string.
Variable Date_now : list Event → Z.
Variables (API TTS : Type).
Variable new_MiniMaxAPI : gmap string Value → Outcome API.
Variable new_TTSAPI : API → Outcome TTS.
Variable TTSAPI_generateSpeech :
  TTS → gmap string Value → list Event → Outcome (gmap string Value).
Variable voiceCloneApi_cloneVoice : gmap string Value → list Event → Outcome Value.
Variable startStdioServer : list Event → Outcome unit.

(** The STDIO voice-clone handler answers a verification error with the
    guidance after its single call of the adapter. *)
Lemma voice_clone_verification (params : gmap string Value) (log : list Event)
    (error : Exn) :
  voiceCloneApi_cloneVoice params log = Throw error →
  isVerificationError (errorMessage error) = true →
  voice_clone ToString voiceCloneApi_cloneVoice params log =
    (textResult verificationGuidance, logged log (Invoke "cloneVoice")).
Proof. intros Hcall Hverif. unfold voice_clone. by rewrite Hcall, Hverif. Qed.

(** [start] throws the matching error when the API key or the API host is
    missing: the two fields are validated when the server starts. *)
Lemma start_validates (config : gmap string Value) (log : list Event) :
  truthy (read config "apiKey") && truthy (read config "apiHost") = false →
  start ERROR_API_KEY_REQUIRED ERROR_API_HOST_REQUIRED startStdioServer config log
  = Throw (ErrorObj (if truthy (read config "apiKey")
                     then ERROR_API_HOST_REQUIRED else ERROR_API_KEY_REQUIRED)).
Proof.
  unfold start. destruct (truthy (read config "apiKey")); cbn [negb andb]; [| done].
  by intros ->.
Qed.


End ToolFacts.



End MCPServerProofs.

(** ** The REST server: retrying handlers *)

Module MCPRestServerProofs.
Import MCPRestServer.

Lemma logged_app (log : list Event) (e : Event) (events : list Event) :
  (logged log e ++ events = log ++ e :: events)%list.
Proof. unfold logged. by rewrite <- app_assoc. Qed.

Lemma invocations_app (log log' : list Event) :
  invocations (log ++ log') = (invocations log + invocations log')%nat.
Proof.
  induction log as [| [method | ms] log IH]; cbn [app invocations]; [done | |];
    rewrite IH; done.
Qed.

Lemma delays_app (log log' : list Event) :
  delays (log ++ log') = (delays log ++ delays log')%list.
Proof.
  induction log as [| [method | ms] log IH]; cbn [app delays]; [done | |];
    rewrite IH; done.
Qed.

Section HandlerFacts.
Variable ToString : JsVal → string.
Variable typeErrorMessage : string → string.
Variable Date_now : list Event → Z.
Variables (MiniMaxAPI MediaService : Type).
Variable mediaService_call :
  MediaService → string → JsVal → list Event → Outcome JsVal.

(** Unfold one level of a handler defined by well-founded recursion. *)
Ltac unfold_handler simp_tac :=
  simp_tac; unfold call;
  destruct (mediaService_call _ _ _ _) as [result | error]; simp_tac; [done |];
  try (destruct (isVerificationError _); simp_tac; [done |]);
  destruct (lt_dec _ _); simp_tac; done.

Lemma handleTextToAudio_unfold (args : JsVal) (api : MiniMaxAPI)
    (mediaService : MediaService) (attempt : nat) (log : list Event) :
  handleTextToAudio mediaService_call args api mediaService attempt log =
    match mediaService_call mediaService "generateSpeech" args log with
    | Return result =>
        (Return (FromService result), logged log (Invoke "generateSpeech"))
    | Throw error =>
        if lt_dec attempt MAX_RETRY_ATTEMPTS then
          handleTextToAudio mediaService_call args api mediaService (attempt + 1)
            (setTimeout (RETRY_DELAY * Math_pow 2 (attempt - 1))
               (logged log (Invoke "generateSpeech")))
        else (Throw (wrapError "Failed to generate speech" error),
              logged log (Invoke "generateSpeech"))
    end.
Proof. unfold_handler ltac:(simp handleTextToAudio). Qed.

Lemma handleListVoices_unfold (args : JsVal) (api : MiniMaxAPI)
    (mediaService : MediaService) (attempt : nat) (log : list Event) :
  handleListVoices mediaService_call args api mediaService attempt log =
    match mediaService_call mediaService "listVoices" args log with
    | Return result =>
        (Return (FromService result), logged log (Invoke "listVoices"))
    | Throw error =>
        if lt_dec attempt MAX_RETRY_ATTEMPTS then
          handleListVoices mediaService_call args api mediaService (attempt + 1)
            (setTimeout (RETRY_DELAY * Math_pow 2 (attempt - 1))
               (logged log (Invoke "listVoices")))
        else (Throw (wrapError "Failed to list voices" error),
              logged log (Invoke "listVoices"))
    end.
Proof. unfold_handler ltac:(simp handleListVoices). Qed.

Lemma handleTextToImage_unfold (args : JsVal) (api : MiniMaxAPI)
    (mediaService : MediaService) (attempt : nat) (log : list Event) :
  handleTextToImage mediaService_call args api mediaService attempt log =
    match mediaService_call mediaService "generateImage" args log with
    | Return result =>
        (Return (FromService result), logged log (Invoke "generateImage"))
    | Throw error =>
        if lt_dec attempt MAX_RETRY_ATTEMPTS then
          handleTextToImage mediaService_call args api mediaService (attempt + 1)
            (setTimeout (RETRY_DELAY * Math_pow 2 (attempt - 1))
               (logged log (Invoke "generateImage")))
        else (Throw (wrapError "Failed to generate image" error),
              logged log (Invoke "generateImage"))
    end.
Proof. unfold_handler ltac:(simp handleTextToImage). Qed.

Lemma handleGenerateVideo_unfold (args : JsVal) (api : MiniMaxAPI)
    (mediaService : MediaService) (attempt : nat) (log : list Event) :
  handleGenerateVideo mediaService_call args api mediaService attempt log =
    match mediaService_call mediaService "generateVideo" args log with
    | Return result =>
        (Return (FromService result), logged log (Invoke "generateVideo"))
    | Throw error =>
        if lt_dec attempt MAX_RETRY_ATTEMPTS then
          handleGenerateVideo mediaService_call args api mediaService (attempt + 1)
            (setTimeout (RETRY_DELAY * Math_pow 2 (attempt - 1))
               (logged log (Invoke "generateVideo")))
        else (Throw (wrapError "Failed to generate video" error),
              logged log (Invoke "generateVideo"))
    end.
Proof. unfold_handler ltac:(simp handleGenerateVideo). Qed.

Lemma handleVoiceClone_unfold (args : JsVal) (api : MiniMaxAPI)
    (mediaService : MediaService) (attempt : nat) (log : list Event) :
  handleVoiceClone mediaService_call args api mediaService attempt log =
    match mediaService_call mediaService "cloneVoice" args log with
    | Return result =>
        (Return (FromService result), logged log (Invoke "cloneVoice"))
    | Throw error =>
        if isVerificationError (errorMessage error) then
          (Return (Tool (textResult verificationGuidance)),
           logged log (Invoke "cloneVoice"))
        else if lt_dec attempt MAX_RETRY_ATTEMPTS then
          handleVoiceClone mediaService_call args api mediaService (attempt + 1)
            (setTimeout (RETRY_DELAY * Math_pow 2 (attempt - 1))
               (logged log (Invoke "cloneVoice")))
        else (Throw (wrapError "Failed to clone voice" error),
              logged log (Invoke "cloneVoice"))
    end.
Proof. unfold_handler ltac:(simp handleVoiceClone). Qed.

Lemma handleImageToVideo_unfold (args : JsVal) (api : MiniMaxAPI)
    (mediaService : MediaService) (attempt : nat) (log : list Event) :
  handleImageToVideo ToString typeErrorMessage Date_now mediaService_call
    args api mediaService attempt log =
    match imageToVideo_try ToString typeErrorMessage Date_now mediaService_call
            args mediaService log with
    | (Return result, _, log1) => (Return (FromService result), log1)
    | (Throw error, args1, log1) =>
        if lt_dec attempt MAX_RETRY_ATTEMPTS then
          handleImageToVideo ToString typeErrorMessage Date_now mediaService_call
            args1 api mediaService (attempt + 1)
            (setTimeout (RETRY_DELAY * Math_pow 2 (attempt - 1)) log1)
        else (Throw (wrapError "Failed to generate video" error), log1)
    end.
Proof.
  simp handleImageToVideo.
  destruct (imageToVideo_try _ _ _ _ _ _ _) as [[[result | error] args1] log1];
    simp handleImageToVideo; [done |].
  destruct (lt_dec _ _); simp handleImageToVideo; done.
Qed.

(** *** The checks of [handleImageToVideo] *)

Lemma imageToVideo_try_ready (props : gmap string JsVal)
    (mediaService : MediaService) (log : list Event) :
  ready props →
  imageToVideo_try ToString typeErrorMessage Date_now mediaService_call
    (JObj props) mediaService log =
    (mediaService_call mediaService "generateVideo" (JObj props) log,
     JObj props, logged log (Invoke "generateVideo")).
Proof.
  intros (Hmodel & Hframe & Hfile).
  unfold imageToVideo_try, ensureModel, ensureOutputFile, get. cbn [nullish mbind Outcome_bind].
  rewrite Hmodel. cbn [negb]. rewrite Hframe, Hfile. cbn [negb]. done.
Qed.

(** With a first frame, and an output file or a prompt to derive one from,
    the first attempt completes the arguments and reaches the service. *)
Lemma imageToVideo_try_first (props : gmap string JsVal)
    (mediaService : MediaService) (log : list Event) :
  truthy (prop (JObj props) "firstFrameImage") = true →
  truthy (prop (JObj props) "outputFile") = true ∨
    (∃ s, prop (JObj props) "prompt" = JStr s) →
  ∃ props', ready props' ∧
    imageToVideo_try ToString typeErrorMessage Date_now mediaService_call
      (JObj props) mediaService log =
      (mediaService_call mediaService "generateVideo" (JObj props') log,
       JObj props', logged log (Invoke "generateVideo")).
Proof.
  intros Hframe Hfile.
  (* the model *)
  assert (Hmodel : ∃ props1,
    ensureModel typeErrorMessage (JObj props) = Return (JObj props1) ∧
    truthy (prop (JObj props1) "model") = true ∧
    (∀ k, k ≠ "model" → props1 !! k = props !! k)).
  { unfold ensureModel, get. cbn [nullish mbind Outcome_bind].
    destruct (truthy (prop (JObj props) "model")) eqn:Hm; cbn [negb set].
    - by exists props.
    - exists (<["model" := JStr "I2V-01"]> props). split; [done |]. split.
      + cbn [prop]. by rewrite lookup_insert_eq.
      + intros k Hk. by rewrite lookup_insert_ne. }
  destruct Hmodel as (props1 & Hensure & Hmodel & Hsame).
  assert (Hframe1 : truthy (prop (JObj props1) "firstFrameImage") = true).
  { cbn [prop] in *. by rewrite Hsame. }
  (* the output file *)
  assert (Houtput : ∃ props2,
    ensureOutputFile ToString typeErrorMessage Date_now (JObj props1) log
      = Return (JObj props2) ∧
    truthy (prop (JObj props2) "outputFile") = true ∧
    (∀ k, k ≠ "outputFile" → props2 !! k = props1 !! k)).
  { unfold ensureOutputFile.
    destruct (truthy (prop (JObj props1) "outputFile")) eqn:Ho; cbn [negb].
    - by exists props1.
    - destruct Hfile as [Hfile | [s Hprompt]].
      { cbn [prop] in *. rewrite Hsame in Ho by done. congruence. }
      assert (Hprompt1 : prop (JObj props1) "prompt" = JStr s).
      { cbn [prop] in *. by rewrite Hsame. }
      rewrite Hprompt1. cbn [promptPrefix mbind Outcome_bind set].
      eexists. split; [reflexivity |]. split.
      + cbn [prop]. by rewrite lookup_insert_eq.
      + intros k Hk. by rewrite lookup_insert_ne. }
  destruct Houtput as (props2 & Hensure2 & Hfile2 & Hsame2).
  exists props2. split.
  { split; [| split; [| done]]; cbn [prop] in *; by rewrite Hsame2. }
  unfold imageToVideo_try. rewrite Hensure, Hframe1. cbn [negb].
  by rewrite Hensure2.
Qed.

(** *** A media service that fails on every call *)

Section AlwaysFailing.
Variable mediaService : MediaService.
Variable err : string → JsVal → list Event → Exn.
Hypothesis Hfail : ∀ method args log,
  mediaService_call mediaService method args log = Throw (err method args log).

Lemma exhausted_log (log : list Event) (method : string) :
  logged (setTimeout (RETRY_DELAY * Math_pow 2 (2 - 1))
    (logged (setTimeout (RETRY_DELAY * Math_pow 2 (1 - 1))
      (logged log (Invoke method))) (Invoke method))) (Invoke method)
  = (log ++ exhaustedTrace method)%list.
Proof.
  unfold setTimeout, logged, exhaustedTrace. by rewrite <- !app_assoc.
Qed.

Lemma before_last_log (log : list Event) (method : string) :
  setTimeout (RETRY_DELAY * Math_pow 2 (2 - 1))
    (logged (setTimeout (RETRY_DELAY * Math_pow 2 (1 - 1))
      (logged log (Invoke method))) (Invoke method))
  = (log ++ beforeLastAttempt method)%list.
Proof.
  unfold setTimeout, logged, beforeLastAttempt. by rewrite <- !app_assoc.
Qed.

(** Three failing attempts of a handler whose unfolding is [Hunfold]. *)
Ltac exhaust Hunfold :=
  rewrite Hunfold, Hfail; cbn match;
  destruct (lt_dec 1 MAX_RETRY_ATTEMPTS) as [_ | Hge];
    [| exfalso; unfold MAX_RETRY_ATTEMPTS in Hge; lia];
  change (1 + 1)%nat with 2%nat;
  rewrite Hunfold, Hfail; cbn match;
  destruct (lt_dec 2 MAX_RETRY_ATTEMPTS) as [_ | Hge];
    [| exfalso; unfold MAX_RETRY_ATTEMPTS in Hge; lia];
  change (2 + 1)%nat with 3%nat;
  rewrite Hunfold, Hfail; cbn match;
  destruct (lt_dec 3 MAX_RETRY_ATTEMPTS) as [Hlt | _];
    [exfalso; unfold MAX_RETRY_ATTEMPTS in Hlt; lia |];
  rewrite exhausted_log, before_last_log; reflexivity.

Lemma handleTextToAudio_exhausts (args : JsVal) (api : MiniMaxAPI) (log : list Event) :
  handleTextToAudio mediaService_call args api mediaService 1 log =
    (Throw (wrapError "Failed to generate speech"
              (err "generateSpeech" args (log ++ beforeLastAttempt "generateSpeech"))),
     (log ++ exhaustedTrace "generateSpeech")%list).
Proof. exhaust handleTextToAudio_unfold. Qed.

Lemma handleListVoices_exhausts (args : JsVal) (api : MiniMaxAPI) (log : list Event) :
  handleListVoices mediaService_call args api mediaService 1 log =
    (Throw (wrapError "Failed to list voices"
              (err "listVoices" args (log ++ beforeLastAttempt "listVoices"))),
     (log ++ exhaustedTrace "listVoices")%list).
Proof. exhaust handleListVoices_unfold. Qed.

Lemma handleTextToImage_exhausts (args : JsVal) (api : MiniMaxAPI) (log : list Event) :
  handleTextToImage mediaService_call args api mediaService 1 log =
    (Throw (wrapError "Failed to generate image"
              (err "generateImage" args (log ++ beforeLastAttempt "generateImage"))),
     (log ++ exhaustedTrace "generateImage")%list).
Proof. exhaust handleTextToImage_unfold. Qed.

Lemma handleGenerateVideo_exhausts (args : JsVal) (api : MiniMaxAPI) (log : list Event) :
  handleGenerateVideo mediaService_call args api mediaService 1 log =
    (Throw (wrapError "Failed to generate video"
              (err "generateVideo" args (log ++ beforeLastAttempt "generateVideo"))),
     (log ++ exhaustedTrace "generateVideo")%list).
Proof. exhaust handleGenerateVideo_unfold. Qed.

Lemma handleVoiceClone_exhausts (args : JsVal) (api : MiniMaxAPI) (log : list Event) :
  (∀ method args log, isVerificationError (errorMessage (err method args log)) = false) →
  handleVoiceClone mediaService_call args api mediaService 1 log =
    (Throw (wrapError "Failed to clone voice"
              (err "cloneVoice" args (log ++ beforeLastAttempt "cloneVoice"))),
     (log ++ exhaustedTrace "cloneVoice")%list).
Proof.
  intros Hretryable.
  assert (Hunfold : ∀ attempt log,
    handleVoiceClone mediaService_call args api mediaService attempt log =
      match mediaService_call mediaService "cloneVoice" args log with
      | Return result =>
          (Return (FromService result), logged log (Invoke "cloneVoice"))
      | Throw error =>
          if lt_dec attempt MAX_RETRY_ATTEMPTS then
            handleVoiceClone mediaService_call args api mediaService (attempt + 1)
              (setTimeout (RETRY_DELAY * Math_pow 2 (attempt - 1))
                 (logged log (Invoke "cloneVoice")))
          else (Throw (wrapError "Failed to clone voice" error),
                logged log (Invoke "cloneVoice"))
      end).
  { intros attempt log'. rewrite handleVoiceClone_unfold, Hfail.
    by rewrite Hretryable. }
  exhaust Hunfold.
Qed.

Lemma handleImageToVideo_exhausts (props : gmap string JsVal) (api : MiniMaxAPI)
    (log : list Event) :
  truthy (prop (JObj props) "firstFrameImage") = true →
  truthy (prop (JObj props) "outputFile") = true ∨
    (∃ s, prop (JObj props) "prompt" = JStr s) →
  ∃ args',
    handleImageToVideo ToString typeErrorMessage Date_now mediaService_call
      (JObj props) api mediaService 1 log =
      (Throw (wrapError "Failed to generate video"
                (err "generateVideo" args' (log ++ beforeLastAttempt "generateVideo"))),
       (log ++ exhaustedTrace "generateVideo")%list).
Proof.
  intros Hframe Hfile.
  destruct (imageToVideo_try_first props mediaService log Hframe Hfile)
    as (props' & Hready & Hfirst).
  exists (JObj props').
  rewrite handleImageToVideo_unfold, Hfirst, Hfail.
  destruct (lt_dec 1 MAX_RETRY_ATTEMPTS) as [_ | Hge];
    [| exfalso; unfold MAX_RETRY_ATTEMPTS in Hge; lia].
  change (1 + 1)%nat with 2%nat.
  rewrite handleImageToVideo_unfold, imageToVideo_try_ready, Hfail by done.
  destruct (lt_dec 2 MAX_RETRY_ATTEMPTS) as [_ | Hge];
    [| exfalso; unfold MAX_RETRY_ATTEMPTS in Hge; lia].
  change (2 + 1)%nat with 3%nat.
  rewrite handleImageToVideo_unfold, imageToVideo_try_ready, Hfail by done.
  destruct (lt_dec 3 MAX_RETRY_ATTEMPTS) as [Hlt | _];
    [exfalso; unfold MAX_RETRY_ATTEMPTS in Hlt; lia |].
  rewrite exhausted_log, before_last_log. reflexivity.
Qed.

(** Whatever its arguments, a [try] block of [handleImageToVideo] fails when
    the service does, adding at most the invocation to the log. *)
Lemma imageToVideo_try_fails (args : JsVal) (log : list Event) :
  ∃ error args1 log1,
    imageToVideo_try ToString typeErrorMessage Date_now mediaService_call
      args mediaService log = (Throw error, args1, log1) ∧
    (log1 = log ∨ log1 = logged log (Invoke "generateVideo")).
Proof.
  unfold imageToVideo_try.
  destruct (ensureModel _ _) as [args1 | error]; [| by eauto 6].
  destruct (truthy (prop args1 "firstFrameImage")); cbn [negb]; [| by eauto 6].
  destruct (ensureOutputFile _ _ _ _ _) as [args2 | error]; [| by eauto 6].
  unfold call. rewrite Hfail. eauto 6.
Qed.

Lemma handleImageToVideo_retries (args : JsVal) (api : MiniMaxAPI) (log : list Event) :
  let log' :=
    (handleImageToVideo ToString typeErrorMessage Date_now mediaService_call
       args api mediaService 1 log).2 in
  delays log' = (delays log ++ [1000; 2000])%list ∧
  (invocations log' ≤ invocations log + 3)%nat.
Proof.
  cbn zeta.
  destruct (imageToVideo_try_fails args log) as (e1 & args1 & log1 & Htry1 & Hlog1).
  rewrite handleImageToVideo_unfold, Htry1.
  destruct (lt_dec 1 MAX_RETRY_ATTEMPTS) as [_ | Hge];
    [| exfalso; unfold MAX_RETRY_ATTEMPTS in Hge; lia].
  change (1 + 1)%nat with 2%nat.
  destruct (imageToVideo_try_fails args1
              (setTimeout (RETRY_DELAY * Math_pow 2 (1 - 1)) log1))
    as (e2 & args2 & log2 & Htry2 & Hlog2).
  rewrite handleImageToVideo_unfold, Htry2.
  destruct (lt_dec 2 MAX_RETRY_ATTEMPTS) as [_ | Hge];
    [| exfalso; unfold MAX_RETRY_ATTEMPTS in Hge; lia].
  change (2 + 1)%nat with 3%nat.
  destruct (imageToVideo_try_fails args2
              (setTimeout (RETRY_DELAY * Math_pow 2 (2 - 1)) log2))
    as (e3 & args3 & log3 & Htry3 & Hlog3).
  rewrite handleImageToVideo_unfold, Htry3.
  destruct (lt_dec 3 MAX_RETRY_ATTEMPTS) as [Hlt | _];
    [exfalso; unfold MAX_RETRY_ATTEMPTS in Hlt; lia |].
  cbn [snd].
  change (RETRY_DELAY * Math_pow 2 (1 - 1)) with 1000 in *.
  change (RETRY_DELAY * Math_pow 2 (2 - 1)) with 2000 in *.
  unfold setTimeout, logged in *.
  destruct Hlog1 as [-> | ->], Hlog2 as [-> | ->], Hlog3 as [-> | ->];
    rewrite ?delays_app, ?invocations_app; cbn [delays invocations];
    rewrite ?app_nil_r, <- ?app_assoc; cbn [app]; split; first [done | lia].
Qed.


(** The handlers that do not retry: one invocation, or none, and no delay. *)
Lemma unretried_once (args : JsVal) (api : MiniMaxAPI) (log : list Event) :
  handleVideoGenerationQuery mediaService_call args api mediaService 1 log =
    (Throw (wrapError "Failed to query video generation"
              (err "queryVideoGeneration" args log)),
     logged log (Invoke "queryVideoGeneration")) ∧
  handleGenerateMusic mediaService_call args api mediaService 1 log =
    (Throw (wrapError "Failed to generate music" (err "generateMusic" args log)),
     logged log (Invoke "generateMusic")) ∧
  handleVoiceDesign mediaService_call args api mediaService 1 log =
    (Throw (wrapError "Failed to design voice" (err "designVoice" args log)),
     logged log (Invoke "designVoice")) ∧
  (handlePlayAudio ToString typeErrorMessage args log).2 = log.
Proof.
  unfold handleVideoGenerationQuery, handleGenerateMusic, handleVoiceDesign, call.
  by rewrite !Hfail.
Qed.


End AlwaysFailing.

(** *** Real-name verification errors *)

Lemma isVerificationError_iff (message : string) :
  isVerificationError message = true ↔
  includes message "voice clone user forbidden" = true ∨
  includes message "should complete real-name verification" = true.
Proof. unfold isVerificationError. apply orb_true_iff. Qed.


(** *** Credential extraction *)

Section Extraction.
Variable ConfigManager_extractConfigFromMetaAuth : JsVal → Outcome JsVal.


End Extraction.

(** *** The dispatcher *)

Section Dispatch.
Variable this_config : JsVal.
Variable ConfigManager_getConfig : JsVal → JsVal → Outcome JsVal.
Variable ConfigManager_extractConfigFromMetaAuth : JsVal → Outcome JsVal.
Variable new_MiniMaxAPI : JsVal → Outcome MiniMaxAPI.
Variable new_MediaService : MiniMaxAPI → Outcome MediaService.

Lemma is_string_ne (v : JsVal) (s : string) : v ≠ JStr s → is_string v s = false.
Proof.
  destruct v as [| | | | s' |]; cbn [is_string]; try done.
  intros Hne. apply String.eqb_neq. congruence.
Qed.

(** A name outside the routing table falls through the [switch]. *)
Lemma route_unknown (toolName toolParams : JsVal) (api : MiniMaxAPI)
    (mediaService : MediaService) (log : list Event) :
  (∀ name, name ∈ routedTools → toolName ≠ JStr name) →
  route ToString typeErrorMessage Date_now mediaService_call
    toolName toolParams api mediaService log
  = (Throw (ErrorObj ("Unknown tool: " +:+ ToString toolName)), log).
Proof.
  intros Hunknown. unfold route.
  rewrite !is_string_ne; [done | ..]; apply Hunknown; unfold routedTools;
    rewrite !elem_of_cons; tauto.
Qed.


End Dispatch.

End HandlerFacts.

(** *** On sample requests *)







(** The sample request carries a key under both paths and both spellings:
    the primary path and [api_key] win. *)
Example extractApiKey_sample :
  extractApiKeyFromRequest (λ k, k) (Samples.requestFor "text_to_audio" ∅)
  = Return (JStr "primary-key").
Proof. vm_compute. reflexivity. Qed.

Example extractRequestConfig_sample :
  extractRequestConfig (λ k, k) Samples.readFragment
    (Samples.requestFor "text_to_audio" ∅)
  = Return (JObj {[ "apiKey" := JStr "primary-key" ]}).
Proof. vm_compute. reflexivity. Qed.

Example extractRequestConfig_undefined :
  extractRequestConfig (λ k, k) Samples.readFragment JUndefined = Return (JObj ∅).
Proof. reflexivity. Qed.

End MCPRestServerProofs.

(** * Further properties *)

(** ** The music adapter: where the coercions land *)

Module MusicAPIFacts.
Import MusicAPI.


(** Case analysis on the comparisons a helper makes. *)
Ltac thresholds :=
  repeat match goal with
         | |- context [Z.eqb ?a ?b] => destruct (Z.eqb_spec a b)
         | |- context [Z.ltb ?a ?b] => destruct (Z.ltb_spec a b)
         | |- context [Z.leb ?a ?b] => destruct (Z.leb_spec a b)
         | H : context [Z.ltb ?a ?b] |- _ => destruct (Z.ltb_spec a b)
         end;
  cbn; try lia.


End MusicAPIFacts.

(** ** File names derived from a prompt *)

Module JsFacts.

Lemma substring_length (n : nat) (s : string) :
  String.length (String.substring 0 n s) = Nat.min n (String.length s).
Proof.
  revert s. induction n as [| n IH]; intros [| c s]; cbn; try done.
  by rewrite IH.
Qed.

Lemma replace_non_word_spec (s : string) :
  String.length (replace_non_word s) = String.length s ∧
  forallb is_word_char (list_ascii_of_string (replace_non_word s)) = true.
Proof.
  induction s as [| c s [IHlen IHword]]; [done |]. cbn [replace_non_word].
  split; [cbn; by rewrite IHlen |].
  cbn [list_ascii_of_string forallb]. rewrite IHword.
  by destruct (is_word_char c) eqn:Hc; rewrite ?Hc.
Qed.

(** X3. The file-name prefix that the handlers and adapters derive from a
    prompt has at most 20 characters (exactly as many as the prompt when that
    is shorter) and only letters, digits and underscores: no path separator,
    dot or blank of the prompt reaches a generated file name. *)
Theorem filePrefix_is_safe (s : string) :
  String.length (filePrefix s) = Nat.min 20 (String.length s) ∧
  forallb is_word_char (list_ascii_of_string (filePrefix s)) = true.
Proof.
  unfold filePrefix.
  destruct (replace_non_word_spec (String.substring 0 20 s)) as [Hlen Hword].
  by rewrite Hlen, substring_length.
Qed.

End JsFacts.

(** ** The adapters as wholes *)

Module MediaAdaptersFacts.
Import MCPRestServer MediaAdapters.

(** An empty string trims to itself, so the two-part test of a required text
    is the test of its trimmed form. *)
Lemma blank_test (text : string) :
  String.eqb text "" || String.eqb (trim text) "" = String.eqb (trim text) "".
Proof. destruct (String.eqb_spec text "") as [-> | _]; done. Qed.

Lemma posts_app {Buffer} (t t' : list (Effect Buffer)) :
  posts (t ++ t') = (posts t ++ posts t')%list.
Proof. induction t as [| [endpoint | dir | file data] t IH]; cbn; by rewrite ?IH. Qed.

Lemma writes_app {Buffer} (t t' : list (Effect Buffer)) :
  writes (t ++ t') = (writes t ++ writes t')%list.
Proof. induction t as [| [endpoint | dir | file data] t IH]; cbn; by rewrite ?IH. Qed.

Section AdapterFacts.
Variables (DEFAULT_FORMAT DEFAULT_MUSIC_MODEL ERROR_PROMPT_REQUIRED
           ERROR_LYRICS_REQUIRED ERROR_PREVIEW_TEXT_REQUIRED
           RESOURCE_MODE_URL : string).
Variable Buffer : Type.
Variable String_of_error : Exn → string.
Variable Buffer_from_hex : JsVal → Outcome Buffer.
Variable Date_now : list (Effect Buffer) → Z.
Variable api_post : string → Body → list (Effect Buffer) → Outcome JsVal.
Variable buildOutputFile :
  string → option string → string → list (Effect Buffer) → Outcome string.
Variable path_dirname : string → string.
Variable fs_existsSync : string → list (Effect Buffer) → bool.
Variable fs_mkdirSync : string → list (Effect Buffer) → Outcome unit.
Variable fs_writeFileSync : string → Buffer → list (Effect Buffer) → Outcome unit.

Local Abbreviation generateMusic :=
  (generateMusic DEFAULT_FORMAT DEFAULT_MUSIC_MODEL ERROR_PROMPT_REQUIRED
     ERROR_LYRICS_REQUIRED RESOURCE_MODE_URL Buffer String_of_error
     Buffer_from_hex Date_now api_post buildOutputFile path_dirname
     fs_existsSync fs_mkdirSync fs_writeFileSync).
Local Abbreviation voiceDesign :=
  (voiceDesign ERROR_PROMPT_REQUIRED ERROR_PREVIEW_TEXT_REQUIRED Buffer
     String_of_error Buffer_from_hex Date_now api_post buildOutputFile
     path_dirname fs_existsSync fs_mkdirSync fs_writeFileSync).
Local Abbreviation saveAudio :=
  (saveAudio Buffer String_of_error Buffer_from_hex path_dirname fs_existsSync
     fs_mkdirSync fs_writeFileSync).

(** The save block only makes a directory and writes the one file, in that
    order, and every failure of it is a save failure. *)
Lemma saveAudio_effects (outputFile : string) (audioData : JsVal)
    (trace : list (Effect Buffer)) :
  ∃ added,
    (saveAudio outputFile audioData trace).2 = (trace ++ added)%list ∧
    posts added = [] ∧
    (match (saveAudio outputFile audioData trace).1 with
     | Return _ => writes added = [outputFile]
     | Throw error =>
         writes added = [] ∧
         ∃ cause, error = ErrorObj ("Failed to save audio file: "
                                    +:+ String_of_error cause)
     end).
Proof.
  unfold MediaAdapters.saveAudio, saveFailed.
  destruct (Buffer_from_hex audioData) as [buffer | error].
  2: { exists []. rewrite app_nil_r. cbn. eauto. }
  destruct (fs_existsSync _ _); cbn [negb].
  - destruct (fs_writeFileSync _ _ _) as [[] | error].
    + eexists [_]. cbn. eauto.
    + exists []. rewrite app_nil_r. cbn. eauto.
  - destruct (fs_mkdirSync _ _) as [[] | error].
    2: { exists []. rewrite app_nil_r. cbn. eauto. }
    destruct (fs_writeFileSync _ _ _) as [[] | error].
    + eexists [_; _]. rewrite <- app_assoc. cbn. eauto.
    + eexists [_]. cbn. eauto.
Qed.






End AdapterFacts.





End MediaAdaptersFacts.

(** ** The STDIO server: more on configuration updates *)

Module MCPServerFacts.
Import MCPServer MCPServerProofs.

(** [mergeServer] leaves every object other than the two configurations as
    it is. *)
Lemma mergeServer_other (σ : gmap loc (gmap string Value)) (tc nc l : loc)
    (o : gmap string Value) :
  σ !! l = Some o → l ≠ tc → l ≠ nc → mergeServer σ tc nc !! l = Some o.
Proof.
  intros Hl Htc Hnc. unfold mergeServer.
  assert (Hstep : ∀ σ' v, σ' !! l = Some o →
    deleteProp nc "server" (setProp tc "server" v σ') !! l = Some o).
  { intros σ' v Hl'. rewrite (lookup_delete_set _ _ _ _ _ o) by done.
    by rewrite !decide_False by congruence. }
  destruct (truthy (read (objAt σ nc) "server")); cbn [andb];
    [destruct (truthy (read (objAt σ tc) "server")) |].
  - destruct (alloc_spec (ownProps σ (read (objAt σ nc) "server")
                          ∪ ownProps σ (read (objAt σ tc) "server")) σ)
      as (l0 & -> & Hfresh).
    apply Hstep. rewrite lookup_insert_ne; [done | congruence].
  - by apply Hstep.
  - done.
Qed.

(** Without a [server] set in the override, [mergeServer] does nothing. *)
Lemma mergeServer_idle (σ : gmap loc (gmap string Value)) (tc nc : loc) :
  truthy (read (objAt σ nc) "server") = false → mergeServer σ tc nc = σ.
Proof. intros Hfalsy. unfold mergeServer. by rewrite Hfalsy. Qed.

(** With a [server] object on both sides, the merged object is new, the old
    configuration object points to it and the override has lost its own. *)
Lemma mergeServer_both (σ : gmap loc (gmap string Value)) (tc nc ls ln : loc)
    (c n so sn : gmap string Value) :
  tc ≠ nc →
  σ !! tc = Some c → c !! "server" = Some (VRef ls) → σ !! ls = Some so →
  σ !! nc = Some n → n !! "server" = Some (VRef ln) → σ !! ln = Some sn →
  ∃ l, σ !! l = None ∧
       mergeServer σ tc nc !! tc = Some (<["server" := VRef l]> c) ∧
       mergeServer σ tc nc !! nc = Some (delete "server" n) ∧
       mergeServer σ tc nc !! l = Some (sn ∪ so).
Proof.
  intros Hne Htc Hcs Hls Hnc Hns Hln. unfold mergeServer.
  rewrite (objAt_lookup _ _ _ Hnc), (objAt_lookup _ _ _ Htc).
  rewrite (read_lookup _ _ _ Hns), (read_lookup _ _ _ Hcs).
  cbn [truthy andb ownProps].
  rewrite (objAt_lookup _ _ _ Hln), (objAt_lookup _ _ _ Hls).
  destruct (alloc_spec (sn ∪ so) σ) as (l & -> & Hfresh).
  exists l. split; [done |].
  assert (l ≠ tc) by congruence. assert (l ≠ nc) by congruence.
  rewrite (lookup_delete_set _ _ _ tc _ c), (lookup_delete_set _ _ _ nc _ n),
          (lookup_delete_set _ _ _ l _ (sn ∪ so))
    by (rewrite ?lookup_insert_eq, ?lookup_insert_ne by done; done).
  repeat case_decide; try congruence; done.
Qed.

(** X9. [updateConfig] installs a new object as [this.config] (its reference
    was not in use before) and leaves every object other than the previous
    configuration and the caller's override exactly as it was. *)
Theorem updateConfig_frame (σ : gmap loc (gmap string Value)) (tc nc l : loc)
    (c o : gmap string Value) :
  σ !! tc = Some c →
  σ !! l = Some o →
  l ≠ tc →
  l ≠ nc →
  σ !! (updateConfig σ tc nc).1 = None ∧
  (updateConfig σ tc nc).2 !! l = Some o.
Proof.
  intros Htc Hl Hltc Hlnc.
  pose proof (updateConfig_spec σ tc nc) as Hspec. cbn zeta in Hspec.
  unfold updateConfig in *.
  destruct (alloc_spec (objAt (mergeServer σ tc nc) nc ∪ objAt (mergeServer σ tc nc) tc)
              (mergeServer σ tc nc)) as (l2 & Halloc & Hfresh).
  rewrite Halloc in *. cbn [fst snd]. destruct Hspec as [_ Hkeep]. split.
  - destruct (σ !! l2) as [o2 |] eqn:Hl2; [| done].
    destruct (mergeServer_frame σ tc nc l2 o2 Hl2) as (o2' & Ho2' & _). congruence.
  - apply Hkeep. by apply mergeServer_other.
Qed.


(** X11. When the previous configuration has no [server] and the override
    brings a [server] object, that very object becomes the server's: the new
    configuration refers to the caller's object, not to a copy. *)
Theorem updateConfig_shares_server (σ : gmap loc (gmap string Value))
    (tc nc ln : loc) (c n : gmap string Value) :
  σ !! tc = Some c →
  truthy (read c "server") = false →
  σ !! nc = Some n →
  n !! "server" = Some (VRef ln) →
  ∃ o, (updateConfig σ tc nc).2 !! (updateConfig σ tc nc).1 = Some o ∧
       o !! "server" = Some (VRef ln).
Proof.
  intros Htc Hfalsy Hnc Hns.
  assert (Hne : tc ≠ nc).
  { intros ->. rewrite Htc in Hnc. injection Hnc as ->.
    by rewrite (read_lookup _ _ _ Hns) in Hfalsy. }
  pose proof (updateConfig_spec σ tc nc) as Hspec. cbn zeta in Hspec.
  destruct (updateConfig σ tc nc) as [l2 σ2]. destruct Hspec as [Hl2 _].
  assert (Hmerge : mergeServer σ tc nc !! tc = Some (<["server" := VRef ln]> c) ∧
                   mergeServer σ tc nc !! nc = Some (delete "server" n)).
  { unfold mergeServer.
    rewrite (objAt_lookup _ _ _ Hnc), (objAt_lookup _ _ _ Htc).
    rewrite (read_lookup _ _ _ Hns), Hfalsy. cbn [truthy andb].
    rewrite (lookup_delete_set _ _ _ tc _ c), (lookup_delete_set _ _ _ nc _ n) by done.
    repeat case_decide; try congruence; done. }
  destruct Hmerge as [Htc' Hnc'].
  rewrite (objAt_lookup _ _ _ Htc'), (objAt_lookup _ _ _ Hnc') in Hl2.
  eexists. split; [exact Hl2 |].
  rewrite lookup_union_r by apply lookup_delete_eq. apply lookup_insert_eq.
Qed.

(** X12. Updating twice with the same override object gives a configuration
    with the same properties as updating once. *)
Theorem updateConfig_idempotent (σ : gmap loc (gmap string Value)) (tc nc : loc)
    (c n : gmap string Value) :
  σ !! tc = Some c →
  σ !! nc = Some n →
  let once := updateConfig σ tc nc in
  let twice := updateConfig once.2 once.1 nc in
  objAt twice.2 twice.1 = objAt once.2 once.1.
Proof.
  intros Htc Hnc. cbn zeta.
  pose proof (updateConfig_spec σ tc nc) as Hspec. cbn zeta in Hspec.
  destruct (mergeServer_frame σ tc nc nc n Hnc) as (n1 & Hn1 & _).
  destruct (mergeServer_frame σ tc nc tc c Htc) as (c1 & Hc1 & _).
  (* the override no longer sets a server *)
  assert (Hidle : truthy (read n1 "server") = false).
  { destruct (truthy (read n "server")) eqn:Hserver.
    - destruct (mergeServer_deletes σ tc nc n Hnc Hserver) as (n' & Hn' & Hgone).
      rewrite Hn1 in Hn'. injection Hn' as <-. unfold read. by rewrite Hgone.
    - rewrite mergeServer_idle in Hn1 by (by rewrite (objAt_lookup _ _ _ Hnc)).
      congruence. }
  destruct (updateConfig σ tc nc) as [l1 σ1] eqn:Honce.
  destruct Hspec as [Hl1 Hkeep]. cbn [fst snd].
  rewrite (objAt_lookup _ _ _ Hn1), (objAt_lookup _ _ _ Hc1) in Hl1.
  pose proof (Hkeep _ _ Hn1) as Hnc1.
  pose proof (updateConfig_spec σ1 l1 nc) as Hspec2. cbn zeta in Hspec2.
  rewrite mergeServer_idle in Hspec2 by (by rewrite (objAt_lookup _ _ _ Hnc1)).
  destruct (updateConfig σ1 l1 nc) as [l2 σ2]. destruct Hspec2 as [Hl2 _].
  cbn [fst snd].
  rewrite (objAt_lookup _ _ _ Hl2), (objAt_lookup _ _ _ Hl1).
  rewrite (objAt_lookup _ _ _ Hnc1).
  by rewrite (assoc_L (∪)), (idemp_L (∪)).
Qed.

(** The sample store: the configuration at 1 with its [server] at 2, the
    override at 3 with its [server] at 4. *)
Lemma updateConfig_frame_witness :
  Samples.sampleStore !! (updateConfig Samples.sampleStore 1 3).1 = None ∧
  (updateConfig Samples.sampleStore 1 3).2 !! 2%positive
  = Some {[ "mode" := VStr "stdio"; "port" := VNum 3000; "endpoint" := VStr "/rest" ]}.
Proof.
  refine (updateConfig_frame Samples.sampleStore 1 3 2 _ _ eq_refl eq_refl _ _);
    discriminate.
Defined.


Lemma updateConfig_shares_server_witness :
  ∃ o, (updateConfig Samples.serverlessStore 1 3).2
         !! (updateConfig Samples.serverlessStore 1 3).1 = Some o ∧
       o !! "server" = Some (VRef 4).
Proof.
  refine (updateConfig_shares_server Samples.serverlessStore 1 3 4
            {[ "apiKey" := VStr "A" ]} {[ "server" := VRef 4 ]}
            eq_refl eq_refl eq_refl eq_refl).
Defined.

Lemma updateConfig_idempotent_witness :
  objAt (updateConfig (updateConfig Samples.sampleStore 1 3).2
           (updateConfig Samples.sampleStore 1 3).1 3).2
        (updateConfig (updateConfig Samples.sampleStore 1 3).2
           (updateConfig Samples.sampleStore 1 3).1 3).1
  = objAt (updateConfig Samples.sampleStore 1 3).2
          (updateConfig Samples.sampleStore 1 3).1.
Proof.
  refine (updateConfig_idempotent Samples.sampleStore 1 3 _ _ eq_refl eq_refl).
Defined.

(** ** The STDIO server: the tool handlers *)

Section Handlers.
Variables (DEFAULT_VOICE_ID DEFAULT_SPEECH_MODEL DEFAULT_SPEED
           DEFAULT_VOLUME DEFAULT_PITCH DEFAULT_EMOTION DEFAULT_FORMAT
           DEFAULT_SAMPLE_RATE DEFAULT_BITRATE DEFAULT_CHANNEL
           DEFAULT_LANGUAGE_BOOST : Value).
Variables (ERROR_API_KEY_REQUIRED RESOURCE_MODE_URL : string).
Variable ToString : Value → string.
Variable typeErrorMessage : string → string.
Variable Date_now : list Event → Z.
Variables (API TTS : Type).
Variable new_MiniMaxAPI : gmap string Value → Outcome API.
Variable new_TTSAPI : API → Outcome TTS.
Variable TTSAPI_generateSpeech :
  TTS → gmap string Value → list Event → Outcome (gmap string Value).
Variable voiceCloneApi_cloneVoice : gmap string Value → list Event → Outcome Value.
Variable voiceApi_listVoices : gmap string Value → list Event → Outcome VoiceList.
Variable playAudio : gmap string Value → list Event → Outcome string.
Variable imageApi_generateImage :
  gmap string Value → list Event → Outcome (list string).
Variable videoApi_generateVideo :
  gmap string Value → list Event → Outcome (gmap string Value).
Variable videoApi_queryVideoGeneration :
  gmap string Value → list Event → Outcome (gmap string Value).
Variable musicApi_generateMusic : gmap string Value → list Event → Outcome Value.
Variable voiceDesignApi_voiceDesign :
  gmap string Value → list Event → Outcome (gmap string Value).

Local Abbreviation text_to_audio :=
  (text_to_audio DEFAULT_VOICE_ID DEFAULT_SPEECH_MODEL DEFAULT_SPEED
     DEFAULT_VOLUME DEFAULT_PITCH DEFAULT_EMOTION DEFAULT_FORMAT
     DEFAULT_SAMPLE_RATE DEFAULT_BITRATE DEFAULT_CHANNEL
     DEFAULT_LANGUAGE_BOOST ERROR_API_KEY_REQUIRED RESOURCE_MODE_URL ToString
     typeErrorMessage Date_now API TTS new_MiniMaxAPI new_TTSAPI
     TTSAPI_generateSpeech).
Local Abbreviation list_voices := (list_voices voiceApi_listVoices).
Local Abbreviation play_audio := (play_audio playAudio).
Local Abbreviation voice_clone := (voice_clone ToString voiceCloneApi_cloneVoice).
Local Abbreviation text_to_image :=
  (text_to_image RESOURCE_MODE_URL ToString typeErrorMessage Date_now
     imageApi_generateImage).
Local Abbreviation generate_video :=
  (generate_video RESOURCE_MODE_URL ToString typeErrorMessage Date_now
     videoApi_generateVideo).
Local Abbreviation image_to_video :=
  (image_to_video RESOURCE_MODE_URL ToString typeErrorMessage Date_now
     videoApi_generateVideo).
Local Abbreviation query_video_generation :=
  (query_video_generation RESOURCE_MODE_URL ToString videoApi_queryVideoGeneration).
Local Abbreviation music_generation :=
  (music_generation RESOURCE_MODE_URL ToString musicApi_generateMusic).
Local Abbreviation voice_design :=
  (voice_design RESOURCE_MODE_URL ToString voiceDesignApi_voiceDesign).

(** One more event, an invocation. *)
Lemma one_invocation (log : list Event) (method : string) :
  delays (logged log (Invoke method)) = delays log ∧
  invocations (logged log (Invoke method)) = S (invocations log).
Proof.
  unfold logged. induction log as [| [m | ms] log [IHd IHi]]; cbn; try done.
  - by rewrite IHd, IHi.
  - by rewrite IHd, IHi.
Qed.

(** X13. No handler of the STDIO server retries or waits: whatever the
    adapters do, each of the ten handlers ends with the delays it started
    with and with at most one more adapter invocation. *)
Theorem stdio_handlers_never_retry (config params : gmap string Value)
    (log : list Event) :
  Forall (λ log', delays log' = delays log ∧
                  (invocations log ≤ invocations log' ≤ S (invocations log))%nat)
    [ (text_to_audio config params log).2;
      (list_voices params log).2;
      (play_audio params log).2;
      (voice_clone params log).2;
      (text_to_image config params log).2;
      (generate_video config params log).2;
      (image_to_video config params log).2;
      (query_video_generation config params log).2;
      (music_generation config params log).2;
      (voice_design config params log).2 ].
Proof.
  assert (Hsame : delays log = delays log ∧
                  (invocations log ≤ invocations log ≤ S (invocations log))%nat)
    by (split; [done | lia]).
  assert (Hone : ∀ method, delays (logged log (Invoke method)) = delays log ∧
            (invocations log ≤ invocations (logged log (Invoke method))
             ≤ S (invocations log))%nat).
  { intros method. destruct (one_invocation log method) as [-> ->]. split; [done | lia]. }
  repeat apply Forall_cons_2; try apply Forall_nil_2; cbv beta.
  - unfold MCPServer.text_to_audio, text_to_audio_try.
    destruct (negb (truthy (read config "apiKey"))); cbn [snd]; auto.
    destruct (new_MiniMaxAPI _ ≫= new_TTSAPI); cbn [snd]; auto.
    destruct (ttsRequest _ _ _ _ _ _); cbn [snd]; auto.
    destruct (TTSAPI_generateSpeech _ _ _); cbn [snd]; auto.
  - unfold MCPServer.list_voices. cbv zeta.
    destruct (voiceApi_listVoices _ _); cbn [snd]; auto.
  - unfold MCPServer.play_audio. cbv zeta. destruct (playAudio _ _); cbn [snd]; auto.
  - unfold MCPServer.voice_clone. cbv zeta.
    destruct (voiceCloneApi_cloneVoice _ _); [| destruct (isVerificationError _)];
      cbn [snd]; auto.
  - unfold MCPServer.text_to_image. cbv zeta.
    destruct (nameOutputFile _ _ _ _ _ _); cbn [snd]; auto.
    destruct (imageApi_generateImage _ _); [destruct (is_string _ _) |]; cbn [snd]; auto.
  - unfold MCPServer.generate_video. cbv zeta.
    destruct (nameOutputFile _ _ _ _ _ _); cbn [snd]; auto.
    destruct (videoApi_generateVideo _ _); cbn [snd]; auto.
  - unfold MCPServer.image_to_video. cbv zeta.
    destruct (nameOutputFile _ _ _ _ _ _); cbn [snd]; auto.
    destruct (videoApi_generateVideo _ _); cbn [snd]; auto.
  - unfold MCPServer.query_video_generation. cbv zeta.
    destruct (videoApi_queryVideoGeneration _ _);
      [destruct (is_string _ _); [destruct (is_string _ _) |] |]; cbn [snd]; auto.
  - unfold MCPServer.music_generation. cbv zeta.
    destruct (musicApi_generateMusic _ _); [destruct (is_string _ _) |]; cbn [snd]; auto.
  - unfold MCPServer.voice_design. cbv zeta.
    destruct (voiceDesignApi_voiceDesign _ _); [destruct (is_string _ _) |];
      cbn [snd]; auto.
Qed.

(** X14. [query_video_generation] answers every status other than
    ['Success'] (a failed task as well) with the still-processing message for
    the task, whatever the resource mode. *)
Theorem query_reports_processing (config params result : gmap string Value)
    (log : list Event) :
  videoApi_queryVideoGeneration params log = Return result →
  is_string (read result "status") "Success" = false →
  query_video_generation config params log
  = (textResult ("Video generation task is still processing: Task ID: "
                 +:+ ToString (read params "taskId") +:+ "."),
     logged log (Invoke "queryVideoGeneration")).
Proof.
  intros Hquery Hstatus. unfold MCPServer.query_video_generation.
  by rewrite Hquery, Hstatus.
Qed.


(** The generated names are not empty. *)
Lemma named_truthy (kind rest : string) :
  kind ≠ "" → truthy (VStr (kind +:+ rest)) = true.
Proof. destruct kind; [done |]. by intros _. Qed.

Lemma nameOutputFile_generated (kind prompt : string) (params : gmap string Value)
    (log : list Event) :
  kind ≠ "" →
  truthy (read params "outputFile") = false →
  read params "prompt" = VStr prompt →
  let named := <["outputFile" := VStr (kind +:+ "_" +:+ filePrefix prompt +:+ "_"
                                       +:+ ToString (VNum (Date_now log)))]> params in
  nameOutputFile ToString typeErrorMessage Date_now kind params log = Return named ∧
  nameOutputFile ToString typeErrorMessage Date_now kind named log = Return named.
Proof.
  intros Hkind Hnone Hprompt named. unfold nameOutputFile.
  rewrite Hnone, Hprompt. cbn [negb textPrefix mbind Outcome_bind]. split; [done |].
  unfold named. rewrite (read_lookup _ _ _ (lookup_insert_eq _ _ _)).
  by rewrite named_truthy.
Qed.

(** X16. A generating handler called without [outputFile] behaves as if it
    had been called with the name it generates: the kind of output, the safe
    prefix of the prompt and the clock, joined by underscores. *)
Theorem output_file_is_generated (config params : gmap string Value)
    (prompt : string) (log : list Event) :
  truthy (read params "outputFile") = false →
  read params "prompt" = VStr prompt →
  let named kind :=
    <["outputFile" := VStr (kind +:+ "_" +:+ filePrefix prompt +:+ "_"
                            +:+ ToString (VNum (Date_now log)))]> params in
  text_to_image config params log = text_to_image config (named "image") log ∧
  generate_video config params log = generate_video config (named "video") log ∧
  image_to_video config params log = image_to_video config (named "i2v") log.
Proof.
  intros Hnone Hprompt named. subst named. cbv beta.
  unfold MCPServer.text_to_image, MCPServer.generate_video, MCPServer.image_to_video.
  destruct (nameOutputFile_generated "image" prompt params log) as [-> ->]; try done.
  destruct (nameOutputFile_generated "video" prompt params log) as [-> ->]; try done.
  destruct (nameOutputFile_generated "i2v" prompt params log) as [-> ->]; try done.
Qed.

End Handlers.

Lemma query_reports_processing_witness :
  query_video_generation "url" Samples.render
    (λ _ _, Return {[ "status" := VStr "Fail" ]})
    {[ "resourceMode" := VStr "url" ]} {[ "taskId" := VStr "T-42" ]} []
  = (textResult "Video generation task is still processing: Task ID: T-42.",
     [Invoke "queryVideoGeneration"]).
Proof.
  refine (query_reports_processing "url" Samples.render
            (λ _ _, Return {[ "status" := VStr "Fail" ]})
            {[ "resourceMode" := VStr "url" ]} {[ "taskId" := VStr "T-42" ]}
            {[ "status" := VStr "Fail" ]} [] eq_refl eq_refl).
Defined.


Lemma output_file_is_generated_witness :
  text_to_image "url" Samples.render (λ method, method +:+ " is not a function")
    (λ _, 1700000000000) (λ params _, Return [Samples.render (read params "outputFile")])
    ∅ {[ "prompt" := VStr "A cat, on a mat" ]} []
  = text_to_image "url" Samples.render (λ method, method +:+ " is not a function")
      (λ _, 1700000000000) (λ params _, Return [Samples.render (read params "outputFile")])
      ∅ (<["outputFile" := VStr ("image" +:+ "_" +:+ filePrefix "A cat, on a mat" +:+ "_"
                                 +:+ Samples.render (VNum 1700000000000))]>
           {[ "prompt" := VStr "A cat, on a mat" ]}) [].
Proof.
  refine (proj1 (output_file_is_generated "url" Samples.render
            (λ method, method +:+ " is not a function") (λ _, 1700000000000)
            (λ params _, Return [Samples.render (read params "outputFile")])
            (λ _ _, Return ∅) ∅ {[ "prompt" := VStr "A cat, on a mat" ]}
            "A cat, on a mat" [] eq_refl eq_refl)).
Defined.

(** The name [text_to_image] generated there. *)
Example generated_image_name :
  text_to_image "url" Samples.render (λ method, method +:+ " is not a function")
    (λ _, 1700000000000) (λ params _, Return [Samples.render (read params "outputFile")])
    ∅ {[ "prompt" := VStr "A cat, on a mat" ]} []
  = (textResult "Image(s) saved: image_A_cat__on_a_mat_1700000000000",
     [Invoke "generateImage"]).
Proof. vm_compute. reflexivity. Qed.

End MCPServerFacts.

(** ** The REST server: more on dispatch *)

Module MCPRestServerFacts.
Import MCPRestServer MCPRestServerProofs.

Lemma routingTable_cases (tool method : string) :
  (tool, method) ∈ routingTable →
  (tool, method) = ("text_to_audio", "generateSpeech") ∨
  (tool, method) = ("list_voices", "listVoices") ∨
  (tool, method) = ("text_to_image", "generateImage") ∨
  (tool, method) = ("generate_video", "generateVideo") ∨
  (tool, method) = ("voice_clone", "cloneVoice") ∨
  (tool, method) = ("image_to_video", "generateVideo") ∨
  (tool, method) = ("query_video_generation", "queryVideoGeneration") ∨
  (tool, method) = ("music_generation", "generateMusic") ∨
  (tool, method) = ("voice_design", "designVoice").
Proof.
  unfold routingTable. rewrite !elem_of_cons, elem_of_nil. tauto.
Qed.

Section DispatchFacts.
Variable ToString : JsVal → string.
Variable typeErrorMessage : string → string.
Variable Date_now : list Event → Z.
Variable this_config : JsVal.
Variable ConfigManager_getConfig : JsVal → JsVal → Outcome JsVal.
Variable ConfigManager_extractConfigFromMetaAuth : JsVal → Outcome JsVal.
Variables (MiniMaxAPI MediaService : Type).
Variable new_MiniMaxAPI : JsVal → Outcome MiniMaxAPI.
Variable new_MediaService : MiniMaxAPI → Outcome MediaService.
Variable mediaService_call :
  MediaService → string → JsVal → list Event → Outcome JsVal.

Local Abbreviation route :=
  (route ToString typeErrorMessage Date_now mediaService_call).
Local Abbreviation callTool :=
  (callTool ToString typeErrorMessage Date_now this_config
     ConfigManager_getConfig ConfigManager_extractConfigFromMetaAuth
     new_MiniMaxAPI new_MediaService mediaService_call).
Local Abbreviation prepareRequest :=
  (prepareRequest typeErrorMessage this_config ConfigManager_getConfig
     ConfigManager_extractConfigFromMetaAuth new_MiniMaxAPI new_MediaService).
Local Abbreviation imageToVideo_try :=
  (imageToVideo_try ToString typeErrorMessage Date_now mediaService_call).
Local Abbreviation handleImageToVideo :=
  (handleImageToVideo ToString typeErrorMessage Date_now mediaService_call).

(** *** The budget of one dispatch *)

Lemma nothing_added (log : list Event) :
  ∃ added, log = (log ++ added)%list ∧ withinBudget added.
Proof.
  exists []. rewrite app_nil_r. split; [done |].
  split; [cbn; unfold MAX_RETRY_ATTEMPTS; lia | by left].
Qed.

(** Close a goal [∃ added, log' = log ++ added ∧ withinBudget added] whose
    [log'] is [log] extended by given events. *)
Ltac within_budget :=
  cbn [snd]; unfold setTimeout, logged; rewrite <- ?app_assoc;
  first [ apply nothing_added
        | eexists; split; [reflexivity |];
          split; [vm_compute; lia | vm_compute; auto] ].

Ltac no_more_attempts :=
  match goal with
  | H : (3 < MAX_RETRY_ATTEMPTS)%nat |- _ =>
      exfalso; unfold MAX_RETRY_ATTEMPTS in H; lia
  end.

(** Up to three attempts of a handler whose unfolding is [Hunfold]. *)
Ltac attempts Hunfold :=
  rewrite Hunfold;
  destruct (mediaService_call _ _ _ _); [within_budget |];
  try (destruct (isVerificationError _); [within_budget |]);
  destruct (lt_dec _ _); [| within_budget];
  change (1 + 1)%nat with 2%nat;
  rewrite Hunfold;
  destruct (mediaService_call _ _ _ _); [within_budget |];
  try (destruct (isVerificationError _); [within_budget |]);
  destruct (lt_dec _ _); [| within_budget];
  change (2 + 1)%nat with 3%nat;
  rewrite Hunfold;
  destruct (mediaService_call _ _ _ _); [within_budget |];
  try (destruct (isVerificationError _); [within_budget |]);
  destruct (lt_dec _ _); [no_more_attempts | within_budget].

(** One attempt of [handleImageToVideo] adds at most one invocation. *)
Lemma imageToVideo_try_log (args : JsVal) (mediaService : MediaService)
    (log : list Event) :
  (imageToVideo_try args mediaService log).2 = log ∨
  (imageToVideo_try args mediaService log).2 = logged log (Invoke "generateVideo").
Proof.
  unfold MCPRestServer.imageToVideo_try.
  destruct (ensureModel _ _); [| by left].
  destruct (negb _); [by left |].
  destruct (ensureOutputFile _ _ _ _ _); [| by left].
  by right.
Qed.

Lemma handleImageToVideo_budget (args : JsVal) (api : MiniMaxAPI)
    (mediaService : MediaService) (log : list Event) :
  ∃ added, (handleImageToVideo args api mediaService 1 log).2 = (log ++ added)%list ∧
           withinBudget added.
Proof.
  rewrite handleImageToVideo_unfold.
  pose proof (imageToVideo_try_log args mediaService log) as Hlog1.
  destruct (imageToVideo_try args mediaService log) as [[[r1 | e1] args1] log1];
    cbn [snd] in Hlog1.
  { destruct Hlog1 as [-> | ->]; within_budget. }
  destruct (lt_dec _ _); [| destruct Hlog1 as [-> | ->]; within_budget].
  change (1 + 1)%nat with 2%nat. rewrite handleImageToVideo_unfold.
  pose proof (imageToVideo_try_log args1 mediaService
                (setTimeout (RETRY_DELAY * Math_pow 2 (1 - 1)) log1)) as Hlog2.
  destruct (imageToVideo_try args1 mediaService _) as [[[r2 | e2] args2] log2];
    cbn [snd] in Hlog2.
  { destruct Hlog1 as [-> | ->], Hlog2 as [-> | ->]; within_budget. }
  destruct (lt_dec _ _);
    [| destruct Hlog1 as [-> | ->], Hlog2 as [-> | ->]; within_budget].
  change (2 + 1)%nat with 3%nat. rewrite handleImageToVideo_unfold.
  pose proof (imageToVideo_try_log args2 mediaService
                (setTimeout (RETRY_DELAY * Math_pow 2 (2 - 1)) log2)) as Hlog3.
  destruct (imageToVideo_try args2 mediaService _) as [[[r3 | e3] args3] log3];
    cbn [snd] in Hlog3.
  { destruct Hlog1 as [-> | ->], Hlog2 as [-> | ->], Hlog3 as [-> | ->]; within_budget. }
  destruct (lt_dec _ _); [no_more_attempts |].
  destruct Hlog1 as [-> | ->], Hlog2 as [-> | ->], Hlog3 as [-> | ->]; within_budget.
Qed.

Lemma route_budget (toolName toolParams : JsVal) (api : MiniMaxAPI)
    (mediaService : MediaService) (log : list Event) :
  ∃ added, (route toolName toolParams api mediaService log).2 = (log ++ added)%list ∧
           withinBudget added.
Proof.
  unfold MCPRestServer.route.
  repeat (destruct (is_string toolName _);
          [first [ apply handleImageToVideo_budget
                 | attempts handleTextToAudio_unfold
                 | attempts handleListVoices_unfold
                 | attempts handleTextToImage_unfold
                 | attempts handleGenerateVideo_unfold
                 | attempts handleVoiceClone_unfold
                 | unfold handlePlayAudio; within_budget
                 | unfold handleVideoGenerationQuery, handleGenerateMusic,
                     handleVoiceDesign, call;
                   destruct (mediaService_call _ _ _ _); within_budget ] |]).
  within_budget.
Qed.

(** X17. One call of a tool, whatever the request, the tool and the
    behaviour of the configuration manager, the adapters and the media
    service, adds at most three service invocations to what happened before,
    and waits not at all, 1000 once, or 1000 and then 2000. *)
Theorem callTool_within_budget (request : JsVal) (log : list Event) :
  ∃ added, (callTool request log).2 = (log ++ added)%list ∧ withinBudget added.
Proof.
  unfold MCPRestServer.callTool.
  destruct (_ ≫= _) as [[toolName toolParams] | error]; [| within_budget].
  destruct (MCPRestServer.prepareRequest _ _ _ _ _ _ _) as [[api mediaService] | error];
    [| within_budget].
  destruct (route_budget toolName toolParams api mediaService log)
    as (added & Hlog & Hbudget).
  exists added. split; [| done].
  by destruct (route toolName toolParams api mediaService log) as [[reply | error] log1].
Qed.

(** *** Routing *)

(** X18. Each routed tool but [play_audio] is bound to one method of the
    media service. When that method returns at the first attempt, the
    dispatcher hands its result on as it is, after this one invocation and
    without delay. ([image_to_video] is given arguments that pass its own
    checks.) *)
Theorem route_follows_table (tool method : string) (toolParams result : JsVal)
    (api : MiniMaxAPI) (mediaService : MediaService) (log : list Event) :
  (tool, method) ∈ routingTable →
  (tool = "image_to_video" → ∃ props, toolParams = JObj props ∧ ready props) →
  mediaService_call mediaService method toolParams log = Return result →
  route (JStr tool) toolParams api mediaService log
  = (Return (FromService result), logged log (Invoke method)).
Proof.
  intros Htable Hready Hcall. unfold MCPRestServer.route.
  destruct (routingTable_cases _ _ Htable)
    as [H | [H | [H | [H | [H | [H | [H | [H | H]]]]]]]];
    injection H as -> ->; cbn [is_string String.eqb Ascii.eqb Bool.eqb].
  - by rewrite handleTextToAudio_unfold, Hcall.
  - by rewrite handleListVoices_unfold, Hcall.
  - by rewrite handleTextToImage_unfold, Hcall.
  - by rewrite handleGenerateVideo_unfold, Hcall.
  - by rewrite handleVoiceClone_unfold, Hcall.
  - destruct Hready as (props & -> & Hready); [done |].
    by rewrite handleImageToVideo_unfold,
      (imageToVideo_try_ready ToString typeErrorMessage Date_now), Hcall.
  - unfold handleVideoGenerationQuery, call. by rewrite Hcall.
  - unfold handleGenerateMusic, call. by rewrite Hcall.
  - unfold handleVoiceDesign, call. by rewrite Hcall.
Qed.

Lemma second_attempt_log (log : list Event) (method : string) :
  setTimeout (RETRY_DELAY * Math_pow 2 (1 - 1)) (logged log (Invoke method))
  = (log ++ [Invoke method; Sleep 1000])%list.
Proof. unfold setTimeout, logged. by rewrite <- app_assoc. Qed.

Lemma third_attempt_log (log : list Event) (method : string) :
  setTimeout (RETRY_DELAY * Math_pow 2 (2 - 1))
    (logged (log ++ [Invoke method; Sleep 1000]) (Invoke method))
  = (log ++ beforeLastAttempt method)%list.
Proof. unfold setTimeout, logged, beforeLastAttempt. by rewrite <- !app_assoc. Qed.

Lemma last_attempt_log (log : list Event) (method : string) :
  logged (log ++ beforeLastAttempt method) (Invoke method)
  = (log ++ exhaustedTrace method)%list.
Proof. unfold logged, beforeLastAttempt, exhaustedTrace. by rewrite <- !app_assoc. Qed.

(** Two failing attempts and a third that returns, for a handler whose
    unfolding is [Hunfold]. *)
Ltac recover Hunfold Hfirst Hsecond Hthird :=
  rewrite Hunfold, Hfirst; cbn match;
  try match goal with H : isVerificationError _ = false |- _ => rewrite H end;
  destruct (lt_dec 1 MAX_RETRY_ATTEMPTS) as [_ | Hge];
    [| exfalso; unfold MAX_RETRY_ATTEMPTS in Hge; lia];
  change (1 + 1)%nat with 2%nat;
  rewrite second_attempt_log, Hunfold, Hsecond; cbn match;
  try match goal with H : isVerificationError _ = false |- _ => rewrite H end;
  destruct (lt_dec 2 MAX_RETRY_ATTEMPTS) as [_ | Hge];
    [| exfalso; unfold MAX_RETRY_ATTEMPTS in Hge; lia];
  change (2 + 1)%nat with 3%nat;
  rewrite third_attempt_log, Hunfold, Hthird, last_attempt_log; reflexivity.

(** X19. A retrying handler recovers: when the service fails at the first
    and at the second attempt and returns at the third, the dispatcher answers
    with that result, after three invocations and the delays 1000 and 2000.
    (For [voice_clone] the two errors are not verification errors;
    [image_to_video] is given arguments that pass its own checks.) *)
Theorem third_attempt_succeeds (tool method : string) (toolParams result : JsVal)
    (first second : Exn) (api : MiniMaxAPI) (mediaService : MediaService)
    (log : list Event) :
  (tool, method) ∈ routingTable →
  tool ∈ retriedTools →
  (tool = "image_to_video" → ∃ props, toolParams = JObj props ∧ ready props) →
  (tool = "voice_clone" →
     isVerificationError (errorMessage first) = false ∧
     isVerificationError (errorMessage second) = false) →
  mediaService_call mediaService method toolParams log = Throw first →
  mediaService_call mediaService method toolParams
    (log ++ [Invoke method; Sleep 1000])%list = Throw second →
  mediaService_call mediaService method toolParams
    (log ++ beforeLastAttempt method)%list = Return result →
  route (JStr tool) toolParams api mediaService log
  = (Return (FromService result), (log ++ exhaustedTrace method)%list).
Proof.
  intros Htable Hretried Hready Hverif Hfirst Hsecond Hthird.
  unfold MCPRestServer.route.
  destruct (routingTable_cases _ _ Htable)
    as [H | [H | [H | [H | [H | [H | [H | [H | H]]]]]]]];
    injection H as -> ->; cbn [is_string String.eqb Ascii.eqb Bool.eqb];
    try (exfalso; revert Hretried; unfold retriedTools;
         rewrite !elem_of_cons, elem_of_nil; intros Hr;
         repeat (destruct Hr as [Hr | Hr]; [discriminate Hr |]); done).
  - recover handleTextToAudio_unfold Hfirst Hsecond Hthird.
  - recover handleListVoices_unfold Hfirst Hsecond Hthird.
  - recover handleTextToImage_unfold Hfirst Hsecond Hthird.
  - recover handleGenerateVideo_unfold Hfirst Hsecond Hthird.
  - destruct Hverif as [Hv1 Hv2]; [done |].
    recover handleVoiceClone_unfold Hfirst Hsecond Hthird.
  - destruct Hready as (props & -> & Hready); [done |].
    pose proof (imageToVideo_try_ready ToString typeErrorMessage Date_now _
                  mediaService_call props mediaService) as Htry.
    rewrite handleImageToVideo_unfold, Htry, Hfirst by done.
    destruct (lt_dec 1 MAX_RETRY_ATTEMPTS) as [_ | Hge];
      [| exfalso; unfold MAX_RETRY_ATTEMPTS in Hge; lia].
    change (1 + 1)%nat with 2%nat.
    rewrite second_attempt_log, handleImageToVideo_unfold, Htry, Hsecond by done.
    destruct (lt_dec 2 MAX_RETRY_ATTEMPTS) as [_ | Hge];
      [| exfalso; unfold MAX_RETRY_ATTEMPTS in Hge; lia].
    change (2 + 1)%nat with 3%nat.
    by rewrite third_attempt_log, handleImageToVideo_unfold, Htry, Hthird, last_attempt_log.
Qed.

(** *** [handleImageToVideo] and its arguments *)

(** X20. A request without [firstFrameImage] is refused by the handler's
    own check, and this refusal is retried like a failure of the service:
    the handler waits 1000 and 2000, never invokes the service, and only then
    throws the wrapped error. *)
Theorem missing_first_frame_is_retried (props : gmap string JsVal)
    (api : MiniMaxAPI) (mediaService : MediaService) (log : list Event) :
  truthy (prop (JObj props) "firstFrameImage") = false →
  handleImageToVideo (JObj props) api mediaService 1 log
  = (Throw (ErrorObj "Failed to generate video: Missing required parameter: firstFrameImage"),
     (log ++ [Sleep 1000; Sleep 2000])%list).
Proof.
  intros Hframe.
  assert (Htry : ∀ props' log',
    truthy (prop (JObj props') "firstFrameImage") = false →
    ∃ props'', truthy (prop (JObj props'') "firstFrameImage") = false ∧
      imageToVideo_try (JObj props') mediaService log'
      = (Throw (ErrorObj "Missing required parameter: firstFrameImage"),
         JObj props'', log')).
  { intros props' log' Hnone.
    unfold MCPRestServer.imageToVideo_try, ensureModel, get.
    cbn [nullish mbind Outcome_bind].
    destruct (truthy (prop (JObj props') "model")); cbn [negb set].
    - exists props'. by rewrite Hnone.
    - exists (<["model" := JStr "I2V-01"]> props').
      assert (Hnone' : truthy (prop (JObj (<["model" := JStr "I2V-01"]> props'))
                                 "firstFrameImage") = false).
      { cbn [prop] in *. by rewrite lookup_insert_ne. }
      by rewrite Hnone'. }
  destruct (Htry props log Hframe) as (props1 & Hframe1 & Htry1).
  rewrite handleImageToVideo_unfold, Htry1.
  destruct (lt_dec 1 MAX_RETRY_ATTEMPTS) as [_ | Hge];
    [| exfalso; unfold MAX_RETRY_ATTEMPTS in Hge; lia].
  change (1 + 1)%nat with 2%nat.
  destruct (Htry props1 (setTimeout (RETRY_DELAY * Math_pow 2 (1 - 1)) log) Hframe1)
    as (props2 & Hframe2 & Htry2).
  rewrite handleImageToVideo_unfold, Htry2.
  destruct (lt_dec 2 MAX_RETRY_ATTEMPTS) as [_ | Hge];
    [| exfalso; unfold MAX_RETRY_ATTEMPTS in Hge; lia].
  change (2 + 1)%nat with 3%nat.
  destruct (Htry props2 (setTimeout (RETRY_DELAY * Math_pow 2 (2 - 1))
                           (setTimeout (RETRY_DELAY * Math_pow 2 (1 - 1)) log)) Hframe2)
    as (props3 & Hframe3 & Htry3).
  rewrite handleImageToVideo_unfold, Htry3.
  destruct (lt_dec 3 MAX_RETRY_ATTEMPTS) as [Hlt | _];
    [exfalso; unfold MAX_RETRY_ATTEMPTS in Hlt; lia |].
  unfold setTimeout, logged. by rewrite <- app_assoc.
Qed.

(** X21. The handler completes its arguments once: without [model] and
    [outputFile], the service receives the model ['I2V-01'] and a file name
    made of the safe prefix of the prompt and the clock of the first attempt;
    when that attempt fails, the second one sends the very same arguments, the
    file name unchanged although the clock has moved on. *)
Theorem image_to_video_keeps_generated_name (props : gmap string JsVal)
    (prompt : string) (result : JsVal) (first : Exn) (api : MiniMaxAPI)
    (mediaService : MediaService) (log : list Event) :
  truthy (prop (JObj props) "firstFrameImage") = true →
  truthy (prop (JObj props) "model") = false →
  truthy (prop (JObj props) "outputFile") = false →
  prop (JObj props) "prompt" = JStr prompt →
  let sent :=
    JObj (<["outputFile" := JStr ("i2v_" +:+ filePrefix prompt +:+ "_"
                                  +:+ ToString (JNum (Date_now log)))]>
          (<["model" := JStr "I2V-01"]> props)) in
  mediaService_call mediaService "generateVideo" sent log = Throw first →
  mediaService_call mediaService "generateVideo" sent
    (log ++ [Invoke "generateVideo"; Sleep 1000])%list = Return result →
  handleImageToVideo (JObj props) api mediaService 1 log
  = (Return (FromService result),
     (log ++ [Invoke "generateVideo"; Sleep 1000; Invoke "generateVideo"])%list).
Proof.
  intros Hframe Hmodel Hfile Hprompt sent Hfirst Hsecond.
  assert (Hready : ready (<["outputFile" := JStr ("i2v_" +:+ filePrefix prompt +:+ "_"
                                  +:+ ToString (JNum (Date_now log)))]>
                          (<["model" := JStr "I2V-01"]> props))).
  { unfold ready. cbn [prop] in *.
    rewrite lookup_insert_eq.
    rewrite !lookup_insert_ne, lookup_insert_eq by done.
    rewrite !lookup_insert_ne by done. done. }
  assert (Htry : imageToVideo_try (JObj props) mediaService log
                 = (Throw first, sent, logged log (Invoke "generateVideo"))).
  { unfold MCPRestServer.imageToVideo_try, ensureModel, ensureOutputFile, get.
    cbn [nullish mbind Outcome_bind]. rewrite Hmodel. cbn [negb set].
    assert (Hsame : ∀ k, k ≠ "model" →
              prop (JObj (<["model" := JStr "I2V-01"]> props)) k = prop (JObj props) k).
    { intros k Hk. cbn [prop]. by rewrite lookup_insert_ne. }
    rewrite !Hsame by done. rewrite Hframe, Hfile, Hprompt.
    cbn [negb promptPrefix mbind Outcome_bind set call].
    fold sent. unfold call. by rewrite Hfirst. }
  rewrite handleImageToVideo_unfold, Htry.
  destruct (lt_dec 1 MAX_RETRY_ATTEMPTS) as [_ | Hge];
    [| exfalso; unfold MAX_RETRY_ATTEMPTS in Hge; lia].
  change (1 + 1)%nat with 2%nat.
  rewrite second_attempt_log, handleImageToVideo_unfold.
  unfold sent.
  rewrite (imageToVideo_try_ready ToString typeErrorMessage Date_now _
             mediaService_call _ mediaService _ Hready).
  fold sent. rewrite Hsecond. unfold logged. by rewrite <- app_assoc.
Qed.

(** *** The dispatcher's own failures *)

(** X22. The API key of a request is only read to be masked for a log
    line, and a key that is set but is not a string makes that fail: the call
    is refused with the wrapped [TypeError], although configuration and
    adapters were ready, and no handler runs. *)
Theorem callTool_rejects_non_string_key (request params toolName apiKey config : JsVal)
    (api : MiniMaxAPI) (mediaService : MediaService) (log : list Event) :
  get typeErrorMessage request "params" = Return params →
  get typeErrorMessage params "tool" = Return toolName →
  getRequestConfig typeErrorMessage this_config ConfigManager_getConfig
    ConfigManager_extractConfigFromMetaAuth request = Return config →
  new_MiniMaxAPI config = Return api →
  new_MediaService api = Return mediaService →
  extractApiKeyFromRequest typeErrorMessage request = Return apiKey →
  truthy apiKey = true →
  (∀ s, apiKey ≠ JStr s) →
  callTool request log
  = (Throw (ErrorObj ("Failed to call tool " +:+ ToString toolName +:+ ": "
                      +:+ typeErrorMessage "substring")), log).
Proof.
  intros Hparams Htool Hconfig Hapi Hservice Hkey Htruthy Hnostring.
  unfold MCPRestServer.callTool, MCPRestServer.prepareRequest.
  rewrite Hparams. cbn [mbind Outcome_bind]. rewrite Htool. cbn [mbind Outcome_bind].
  rewrite Hconfig. cbn [mbind Outcome_bind]. rewrite Hapi. cbn [mbind Outcome_bind].
  rewrite Hservice. cbn [mbind Outcome_bind]. rewrite Hkey. cbn [mbind Outcome_bind].
  unfold maskedKey. rewrite Htruthy.
  destruct apiKey as [| | | | s |]; try done. by destruct (Hnostring s).
Qed.

(** X23. Whatever a call of a tool throws once the tool name could be read
    is an [Error] whose message starts with ['Failed to call tool <name>: ']:
    errors of the configuration manager, of the adapters' constructors and of
    the handlers alike, and values thrown that are no [Error]. *)
Theorem callTool_errors_name_the_tool (request params toolName : JsVal)
    (log : list Event) :
  get typeErrorMessage request "params" = Return params →
  get typeErrorMessage params "tool" = Return toolName →
  match (callTool request log).1 with
  | Return reply => True
  | Throw error =>
      ∃ cause, error = ErrorObj ("Failed to call tool " +:+ ToString toolName
                                 +:+ ": " +:+ cause)
  end.
Proof.
  intros Hparams Htool. unfold MCPRestServer.callTool.
  rewrite Hparams. cbn [mbind Outcome_bind]. rewrite Htool. cbn [mbind Outcome_bind].
  destruct (MCPRestServer.prepareRequest _ _ _ _ _ _ _) as [[api mediaService] | error];
    [destruct (route _ _ _ _ _) as [[reply | error] log1] |]; cbn [fst]; try done;
    destruct error as [message | rendered]; cbn [wrapError]; eauto.
Qed.

(** X24. The REST [play_audio] plays nothing: for the parameters the
    dispatcher passes on ([request.params.params || {}]) the handler answers
    ['Playing audio: <inputFilePath>'] at once; it never fails, and nothing is
    invoked. *)
Theorem rest_play_audio_only_answers (given : JsVal) (api : MiniMaxAPI)
    (mediaService : MediaService) (log : list Event) :
  let toolParams := or_else given (JObj ∅) in
  route (JStr "play_audio") toolParams api mediaService log
  = (Return (Tool (textResult ("Playing audio: " +:+
                               ToString (prop toolParams "inputFilePath")))), log).
Proof.
  cbn zeta. unfold MCPRestServer.route.
  cbn [is_string String.eqb Ascii.eqb Bool.eqb].
  unfold handlePlayAudio, get.
  assert (Hobject : nullish (or_else given (JObj ∅)) = false).
  { unfold or_else. destruct (truthy given) eqn:Htruthy; [| done]. by destruct given. }
  by rewrite Hobject.
Qed.

(** *** Resources and prompts *)

Local Abbreviation getRequestConfig :=
  (getRequestConfig typeErrorMessage this_config ConfigManager_getConfig
     ConfigManager_extractConfigFromMetaAuth).
Local Abbreviation listResources :=
  (listResources typeErrorMessage this_config ConfigManager_getConfig
     ConfigManager_extractConfigFromMetaAuth).
Local Abbreviation readResource :=
  (readResource ToString typeErrorMessage this_config ConfigManager_getConfig
     ConfigManager_extractConfigFromMetaAuth).
Local Abbreviation listPrompts :=
  (listPrompts typeErrorMessage this_config ConfigManager_getConfig
     ConfigManager_extractConfigFromMetaAuth).
Local Abbreviation getPrompt :=
  (getPrompt ToString typeErrorMessage this_config ConfigManager_getConfig
     ConfigManager_extractConfigFromMetaAuth).

Lemma wrapError_message_throw {A} (message : string) (error : Exn) :
  ∃ cause, @Throw A (wrapError message error)
           = Throw (ErrorObj (message +:+ ": " +:+ cause)).
Proof. destruct error; cbn [wrapError]; eauto. Qed.

(** X25. The server offers no resource and no prompt. For every request
    the two list handlers answer with the empty list or throw their wrapped
    error (when the configuration cannot be resolved), and the two read
    handlers throw their wrapped error: they never return. *)
Theorem no_resources_no_prompts (request : JsVal) :
  (listResources request = Return [] ∨
   ∃ cause, listResources request
            = Throw (ErrorObj ("Failed to get resource list: " +:+ cause))) ∧
  (listPrompts request = Return [] ∨
   ∃ cause, listPrompts request
            = Throw (ErrorObj ("Failed to get prompt list: " +:+ cause))) ∧
  (∃ cause, readResource request
            = Throw (ErrorObj ("Failed to read resource: " +:+ cause))) ∧
  (∃ cause, getPrompt request
            = Throw (ErrorObj ("Failed to get prompt: " +:+ cause))).
Proof.
  unfold MCPRestServer.listResources, MCPRestServer.listPrompts,
    MCPRestServer.readResource, MCPRestServer.getPrompt.
  destruct (getRequestConfig request) as [config | error];
    cbn [mbind Outcome_bind try_catch].
  - repeat split; [by left | by left | |].
    + destruct (get typeErrorMessage request "params") as [params | error];
        cbn [mbind Outcome_bind try_catch]; [| apply wrapError_message_throw].
      destruct (get typeErrorMessage params "uri"); cbn [mbind Outcome_bind try_catch];
        apply wrapError_message_throw.
    + destruct (get typeErrorMessage request "params") as [params | error];
        cbn [mbind Outcome_bind try_catch]; [| apply wrapError_message_throw].
      destruct (get typeErrorMessage params "name"); cbn [mbind Outcome_bind try_catch];
        apply wrapError_message_throw.
  - repeat split; try right; apply wrapError_message_throw.
Qed.

End DispatchFacts.

Lemma route_follows_table_witness :
  route Samples.renderJs (λ k, "Cannot read properties (reading " +:+ k +:+ ")")
    Samples.clock (Samples.recoversAfter 0)
    (JStr "text_to_audio") (JObj {[ "text" := JStr "hello" ]}) () () []
  = (Return (FromService (JStr "out.mp3")), [Invoke "generateSpeech"]).
Proof.
  apply (route_follows_table Samples.renderJs
           (λ k, "Cannot read properties (reading " +:+ k +:+ ")") Samples.clock
           unit unit (Samples.recoversAfter 0) "text_to_audio" "generateSpeech").
  - apply (bool_decide_unpack _). vm_compute. exact I.
  - intros Htool. discriminate Htool.
  - reflexivity.
Defined.

Lemma third_attempt_succeeds_witness :
  route Samples.renderJs (λ k, "Cannot read properties (reading " +:+ k +:+ ")")
    Samples.clock (Samples.recoversAfter 4)
    (JStr "voice_clone")
    (JObj {[ "voiceId" := JStr "v1"; "audioFile" := JStr "a.mp3" ]}) () () []
  = (Return (FromService (JStr "out.mp3")), exhaustedTrace "cloneVoice").
Proof.
  apply (third_attempt_succeeds Samples.renderJs
           (λ k, "Cannot read properties (reading " +:+ k +:+ ")") Samples.clock
           unit unit (Samples.recoversAfter 4) "voice_clone" "cloneVoice"
           (JObj {[ "voiceId" := JStr "v1"; "audioFile" := JStr "a.mp3" ]})
           (JStr "out.mp3") (ErrorObj "connect ETIMEDOUT") (ErrorObj "connect ETIMEDOUT")
           () () []).
  - apply (bool_decide_unpack _). vm_compute. exact I.
  - apply (bool_decide_unpack _). vm_compute. exact I.
  - intros Htool. discriminate Htool.
  - intros _. split; reflexivity.
  - reflexivity.
  - reflexivity.
  - reflexivity.
Defined.

Lemma missing_first_frame_is_retried_witness :
  handleImageToVideo Samples.renderJs
    (λ k, "Cannot read properties (reading " +:+ k +:+ ")") Samples.clock
    (Samples.recoversAfter 0) (JObj {[ "prompt" := JStr "A cat, on a mat" ]}) () () 1 []
  = (Throw (ErrorObj "Failed to generate video: Missing required parameter: firstFrameImage"),
     [Sleep 1000; Sleep 2000]).
Proof.
  apply (missing_first_frame_is_retried Samples.renderJs
           (λ k, "Cannot read properties (reading " +:+ k +:+ ")") Samples.clock
           unit unit (Samples.recoversAfter 0)
           {[ "prompt" := JStr "A cat, on a mat" ]} () () []).
  reflexivity.
Defined.

Lemma image_to_video_keeps_generated_name_witness :
  handleImageToVideo Samples.renderJs
    (λ k, "Cannot read properties (reading " +:+ k +:+ ")") Samples.clock
    (Samples.recoversAfter 2)
    (JObj {[ "prompt" := JStr "A cat, on a mat"; "firstFrameImage" := JStr "cat.png" ]})
    () () 1 []
  = (Return (FromService (JStr "i2v_A_cat__on_a_mat_1700000000000")),
     [Invoke "generateVideo"; Sleep 1000; Invoke "generateVideo"]).
Proof.
  apply (image_to_video_keeps_generated_name Samples.renderJs
           (λ k, "Cannot read properties (reading " +:+ k +:+ ")") Samples.clock
           unit unit (Samples.recoversAfter 2)
           {[ "prompt" := JStr "A cat, on a mat"; "firstFrameImage" := JStr "cat.png" ]}
           "A cat, on a mat" (JStr "i2v_A_cat__on_a_mat_1700000000000")
           (ErrorObj "connect ETIMEDOUT") () () []).
  - reflexivity.
  - reflexivity.
  - reflexivity.
  - reflexivity.
  - reflexivity.
  - vm_compute. reflexivity.
Defined.

Lemma callTool_rejects_non_string_key_witness :
  Samples.callTool_ok Samples.numericKeyRequest []
  = (Throw (ErrorObj ("Failed to call tool list_voices: "
                      +:+ "Cannot read properties (reading substring)")), []).
Proof.
  apply (callTool_rejects_non_string_key Samples.renderJs
           (λ k, "Cannot read properties (reading " +:+ k +:+ ")") Samples.clock
           Samples.baseline Samples.layOver Samples.readFragment unit unit
           (λ _, Return ()) (λ _, Return ()) (Samples.recoversAfter 0)
           Samples.numericKeyRequest (prop Samples.numericKeyRequest "params")
           (JStr "list_voices") (JNum 12345678)
           (JObj (<["apiKey" := JNum 12345678]> (ownProps Samples.baseline))) () () []).
  - reflexivity.
  - reflexivity.
  - vm_compute. reflexivity.
  - reflexivity.
  - reflexivity.
  - reflexivity.
  - reflexivity.
  - intros s Hstring. discriminate Hstring.
Defined.

Lemma callTool_errors_name_the_tool_witness :
  ∃ cause,
    (Samples.callTool_networkDown (Samples.requestFor "text_to_audio" ∅) []).1
    = Throw (ErrorObj ("Failed to call tool text_to_audio: " +:+ cause)).
Proof.
  pose proof (callTool_errors_name_the_tool Samples.renderJs
           (λ k, "Cannot read properties (reading " +:+ k +:+ ")") (λ _, 0)
           Samples.baseline Samples.layOver Samples.readFragment unit unit
           (λ _, Return ()) (λ _, Return ()) Samples.networkDown
           (Samples.requestFor "text_to_audio" ∅)
           (prop (Samples.requestFor "text_to_audio" ∅) "params")
           (JStr "text_to_audio") [] eq_refl eq_refl) as Hnamed.
  change (MCPRestServer.callTool _ _ _ _ _ _ _ _ _)
    with Samples.callTool_networkDown in Hnamed.
  destruct (Samples.callTool_networkDown _ _).1 as [reply | error] eqn:Hcall.
  - vm_compute in Hcall. discriminate Hcall.
  - destruct Hnamed as [cause ->]. by exists cause.
Defined.

(** *** The server's own configuration *)

Section ConfigFacts.
Variable typeErrorMessage : string → string.
Variable this_config : JsVal.
Variable ConfigManager_getConfig : JsVal → JsVal → Outcome JsVal.
Variables (MiniMaxAPI MediaService : Type).
Variable new_MiniMaxAPI : JsVal → Outcome MiniMaxAPI.
Variable new_MediaService : MiniMaxAPI → Outcome MediaService.
Variable TRANSPORT_MODE_REST : string.
Variables (DEFAULT_SERVER_PORT DEFAULT_SERVER_ENDPOINT : JsVal).

Local Abbreviation initializeConfig :=
  (initializeConfig typeErrorMessage ConfigManager_getConfig TRANSPORT_MODE_REST
     DEFAULT_SERVER_PORT DEFAULT_SERVER_ENDPOINT).
Local Abbreviation updateConfig :=
  (updateConfig typeErrorMessage this_config ConfigManager_getConfig
     new_MiniMaxAPI new_MediaService TRANSPORT_MODE_REST).
Local Abbreviation transportOptions :=
  (transportOptions typeErrorMessage DEFAULT_SERVER_PORT DEFAULT_SERVER_ENDPOINT).

(** X26. A configuration that [initializeConfig] installs always has a
    [server] object whose [mode] is the REST mode, whatever the configuration
    manager answered; its other fields are the manager's. A [server] the
    manager gave keeps its other keys; a missing one is created with the
    default port and endpoint. *)
Theorem initializeConfig_forces_rest_mode (customConfig base config : JsVal) :
  ConfigManager_getConfig customConfig JUndefined = Return base →
  initializeConfig customConfig = Return config →
  ∃ server,
    prop config "server" = JObj server ∧
    server !! "mode" = Some (JStr TRANSPORT_MODE_REST) ∧
    (∀ k, k ≠ "server" → prop config k = prop base k) ∧
    (∀ k, k ≠ "mode" →
       server !! k =
         if truthy (prop base "server") then ownProps (prop base "server") !! k
         else ({[ "port" := DEFAULT_SERVER_PORT;
                  "endpoint" := DEFAULT_SERVER_ENDPOINT ]} : gmap string JsVal) !! k).
Proof.
  intros Hbase. unfold MCPRestServer.initializeConfig, get, set.
  rewrite Hbase. cbn [mbind Outcome_bind].
  destruct base as [| | | | | props]; cbn [nullish]; try done.
  cbn [mbind Outcome_bind].
  destruct (truthy (prop (JObj props) "server")) eqn:Hserver.
  - destruct (prop (JObj props) "server") as [| | | | | server] eqn:Hprop; try done.
    cbn [mbind Outcome_bind]. intros [= <-].
    exists (<["mode" := JStr TRANSPORT_MODE_REST]> server).
    cbn [prop ownProps]. rewrite !lookup_insert_eq. repeat split.
    + intros k Hk. by rewrite lookup_insert_ne.
    + intros k Hk. by rewrite lookup_insert_ne.
  - intros [= <-]. eexists. cbn [prop]. rewrite lookup_insert_eq.
    split; [reflexivity |]. rewrite lookup_insert_eq. repeat split.
    + intros k Hk. by rewrite lookup_insert_ne.
    + intros k Hk. rewrite lookup_insert_ne by done.
      rewrite insert_empty. done.
Qed.

(** X27. [updateConfig] cannot change the transport: when it completes
    and the merged configuration has a [server], that is an object whose
    [mode] is the REST mode, whatever mode the new configuration asked for.
    Unlike [initializeConfig], it creates no [server] when the merged
    configuration has none: the configuration is then installed as merged. *)
Theorem updateConfig_keeps_rest_mode (newConfig merged : JsVal)
    (adapters : MiniMaxAPI * MediaService) :
  ConfigManager_getConfig newConfig this_config = Return merged →
  (updateConfig newConfig).1 = Return adapters →
  let config := (updateConfig newConfig).2 in
  if truthy (prop merged "server") then
    ∃ server, prop config "server" = JObj server ∧
              server !! "mode" = Some (JStr TRANSPORT_MODE_REST)
  else config = merged.
Proof.
  intros Hmerged. unfold MCPRestServer.updateConfig, forceRestMode, get, set.
  rewrite Hmerged.
  destruct merged as [| | | | | props]; cbn [nullish]; try done.
  cbn [mbind Outcome_bind].
  destruct (truthy (prop (JObj props) "server")) eqn:Hserver; [| done].
  destruct (prop (JObj props) "server") as [| | | | | server] eqn:Hprop; try done.
  cbn [mbind Outcome_bind fst snd]. intros _.
  exists (<["mode" := JStr TRANSPORT_MODE_REST]> server).
  cbn [prop]. by rewrite !lookup_insert_eq.
Qed.

End ConfigFacts.

Lemma initializeConfig_forces_rest_mode_witness :
  ∃ server,
    initializeConfig (λ k, "Cannot read properties (reading " +:+ k +:+ ")")
      Samples.layOver "rest" (JNum 3000) (JStr "/rest")
      (JObj {[ "apiKey" := JStr "K";
               "server" := JObj {[ "mode" := JStr "stdio"; "port" := JNum 8080 ]} ]})
    = Return (JObj {[ "apiKey" := JStr "K"; "server" := JObj server ]}) ∧
    server !! "mode" = Some (JStr "rest") ∧
    server !! "port" = Some (JNum 8080).
Proof.
  assert (Hinit :
    initializeConfig (λ k, "Cannot read properties (reading " +:+ k +:+ ")")
      Samples.layOver "rest" (JNum 3000) (JStr "/rest")
      (JObj {[ "apiKey" := JStr "K";
               "server" := JObj {[ "mode" := JStr "stdio"; "port" := JNum 8080 ]} ]})
    = Return (JObj {[ "apiKey" := JStr "K";
                      "server" := JObj {[ "mode" := JStr "rest";
                                          "port" := JNum 8080 ]} ]}))
    by (vm_compute; reflexivity).
  destruct (initializeConfig_forces_rest_mode
              (λ k, "Cannot read properties (reading " +:+ k +:+ ")")
              Samples.layOver "rest" (JNum 3000) (JStr "/rest")
              (JObj {[ "apiKey" := JStr "K";
                       "server" := JObj {[ "mode" := JStr "stdio";
                                           "port" := JNum 8080 ]} ]})
              _ _ eq_refl Hinit)
    as (server & Hserver & Hmode & Hfields & Hkeys).
  exists server. injection Hserver as <-. split; [exact Hinit |]. by split.
Defined.

Lemma updateConfig_keeps_rest_mode_witness :
  ∃ server,
    prop (updateConfig (λ k, "Cannot read properties (reading " +:+ k +:+ ")")
            (JObj {[ "apiKey" := JStr "A";
                     "server" := JObj {[ "mode" := JStr "rest"; "port" := JNum 3000 ]} ]})
            Samples.layOver (λ _, Return ()) (λ _, Return ()) "rest"
            (JObj {[ "server" := JObj {[ "mode" := JStr "stdio" ]} ]})).2 "server"
    = JObj server ∧
    server !! "mode" = Some (JStr "rest").
Proof.
  exact (updateConfig_keeps_rest_mode
           (λ k, "Cannot read properties (reading " +:+ k +:+ ")")
           (JObj {[ "apiKey" := JStr "A";
                    "server" := JObj {[ "mode" := JStr "rest"; "port" := JNum 3000 ]} ]})
           Samples.layOver unit unit (λ _, Return ()) (λ _, Return ()) "rest"
           (JObj {[ "server" := JObj {[ "mode" := JStr "stdio" ]} ]})
           (JObj (<["server" := JObj {[ "mode" := JStr "stdio" ]}]>
                    {[ "apiKey" := JStr "A" ]}))
           ((), ()) eq_refl eq_refl).
Defined.

(** *** The tool list *)

(** X28. Every tool the server lists can be called: its name is one the
    dispatcher routes. The converse fails for one name only:
    [query_video_generation] is routed and not listed. *)
Theorem listed_tools_are_routed (tool : string) :
  tool ∈ map tool_name listTools ↔
  tool ∈ routedTools ∧ tool ≠ "query_video_generation".
Proof.
  unfold listTools, routedTools. cbn [map tool_name].
  rewrite !elem_of_cons, !elem_of_nil. split.
  - intros Hlisted.
    repeat (destruct Hlisted as [-> | Hlisted]; [split; [tauto | done] |]). done.
  - intros [Hrouted Hquery].
    repeat (destruct Hrouted as [-> | Hrouted]; [tauto |]). done.
Qed.

(** X29. In the tool list, each tool's [arguments] and the properties of
    its [inputSchema] name the same parameters in the same order, no tool is
    listed twice, and the arguments flagged [required] are those of the
    schema's [required] list, for every tool but [list_voices]: its only
    argument is flagged optional and required by the schema. *)
Theorem tool_list_is_consistent :
  NoDup (map tool_name listTools) ∧
  Forall (λ tool,
            map fst (tool_arguments tool) = map fst (schema_properties tool) ∧
            if String.eqb (tool_name tool) "list_voices" then
              tool_arguments tool = [("voiceType", false)] ∧
              schema_required tool = ["voiceType"]
            else
              map fst (filter (λ argument, argument.2 = true) (tool_arguments tool))
              = schema_required tool)
         listTools.
Proof.
  split.
  - unfold listTools. cbn [map tool_name].
    repeat (apply NoDup_cons; split;
            [rewrite ?elem_of_cons, ?elem_of_nil; intros H;
             repeat (destruct H as [H | H]; [discriminate H |]); done |]).
    apply NoDup_nil_2.
  - unfold listTools. repeat apply Forall_cons_2; try apply Forall_nil_2;
      by vm_compute.
Qed.

End MCPRestServerFacts.
